(** * KernelTalk: the broadcast ring buffer of [kerneltalk_mod.c]

    A shallow embedding of the character device of [src/kerneltalk_mod.c]:
    one fixed-size circular buffer per server (one server per inode), one
    read offset per client, and the backpressure rule that keeps the writer
    one slot behind the client with the most unread data.

    How the C code is read:
    - [int] values are [Z].  Every offset the code stores is reduced modulo
      [KERNELTALK_BUF] and every sum it forms is below [2 * KERNELTALK_BUF],
      so no [int] operation overflows on a well-formed server ([wf] below);
      [%] on [int] is [Z.rem] (truncation), as in C.
    - [size_t length] of [read] is a [nat]: the loop only decrements it and
      tests it against zero.  The user buffer of [write] is the list of its
      [amt] bytes; the user buffer of [read] is the list of bytes stored by
      [put_user], in order.
    - A [struct kerneltalk_client] is named by its address (a [nat]); the
      server state carries the [offset] field of each client struct and the
      linked list [client_list] as the list of addresses in the order
      [list_for_each_entry] visits them ([list_add] pushes at the head).
    - Locks, wait queues and wake-ups are recorded as a trace of events
      next to the state, so that the order in which a call takes its locks
      can be stated.
    - A call runs from the state it finds to the point where it returns or
      goes to sleep in [wait_event_interruptible]; the three outcomes are
      [Returned], [Sleeping] and [Reenter]. *)

From Stdlib Require Import ZArith Lia.
From Stdlib.Strings Require Import Byte.
From stdpp Require Import base list numbers functions.
Open Scope Z_scope.

(** * Part I: the program *)

(** ** Constants and macros *)

Definition KERNELTALK_BUF : Z := 2048.
Definition SUCCESS : Z := 0.

(** errno values of the kernel headers *)
Definition EAGAIN : Z := 11.
Definition ENOMEM : Z := 12.
Definition ERESTARTSYS : Z := 512.

(** poll bits of the kernel headers *)
Definition POLLIN : Z := 1.
Definition POLLOUT : Z := 4.
Definition POLLRDNORM : Z := 64.
Definition POLLWRNORM : Z := 256.

(** [#define DIST(a, b) ((a) <= (b) ? (b) - (a) : KERNELTALK_BUF + (b) - (a))] *)
Definition DIST (a b : Z) : Z :=
  if a <=? b then b - a else KERNELTALK_BUF + b - a.

(** ** Data *)

#[global] Instance byte_inhabited : Inhabited byte := populate x00.

(** [struct kerneltalk_server], together with the [offset] field of the
    client structs that point to it.  [end_] is the field [end]. *)
Record kerneltalk_server := mk_server {
  inode : nat;
  client_list : list nat;
  offset : nat -> Z;
  buffer : list byte;
  end_ : Z
}.

Definition set_client_list (l : list nat) (srv : kerneltalk_server) : kerneltalk_server :=
  mk_server (inode srv) l (offset srv) (buffer srv) (end_ srv).

Definition set_offset (cnt : nat) (o : Z) (srv : kerneltalk_server) : kerneltalk_server :=
  mk_server (inode srv) (client_list srv) (<[cnt := o]> (offset srv)) (buffer srv) (end_ srv).

Definition set_buffer (b : list byte) (srv : kerneltalk_server) : kerneltalk_server :=
  mk_server (inode srv) (client_list srv) (offset srv) b (end_ srv).

Definition set_end (e : Z) (srv : kerneltalk_server) : kerneltalk_server :=
  mk_server (inode srv) (client_list srv) (offset srv) (buffer srv) e.

(** ** Events: locks and wait queues *)

Inductive lock := server_list_lock | client_list_lock | buffer_lock.

Inductive wait_queue := rwq | wwq.

Inductive event :=
| ev_mutex_lock (l : lock)
| ev_mutex_unlock (l : lock)
| ev_down_read
| ev_up_read
| ev_down_write
| ev_up_write
| ev_wake_up (q : wait_queue)
| ev_poll_wait (q : wait_queue).

#[global] Instance lock_eq_dec : EqDecision lock.
Proof. solve_decision. Defined.

(** How a call of [read] or [write] ends, seen from the state it found:
    it returns [rv] (a byte count, or a negated errno); or it sleeps on the
    wait queue [q] inside [wait_event_interruptible], the buffer lock
    released, and goes back to its loop test when it is woken; or
    [wait_event_interruptible] found its condition true at once and the
    call goes back to its loop test without sleeping.  The last case needs
    another thread to act between the loop test and the wait
    ([never_reenter]). *)
Inductive outcome :=
| Returned (rv : Z)
| Sleeping (q : wait_queue)
| Reenter.

(** ** A state monad that also collects the events *)

Definition M (S A : Type) : Type := S -> A * S * list event.

Definition ret {S A} (a : A) : M S A := fun s => (a, s, []).

Definition bind {S A B} (m : M S A) (f : A -> M S B) : M S B :=
  fun s =>
    let '(a, s1, t1) := m s in
    let '(b, s2, t2) := f a s1 in
    (b, s2, t1 ++ t2).

Definition get {S A} (f : S -> A) : M S A := fun s => (f s, s, []).
Definition modify {S} (f : S -> S) : M S unit := fun s => (tt, f s, []).
Definition emit {S} (e : event) : M S unit := fun s => (tt, s, [e]).

Declare Scope kt_scope.
Delimit Scope kt_scope with kt.
Notation "x <- m ;; k" := (bind m (fun x => k))
  (at level 100, m at next level, right associativity) : kt_scope.
Notation "m ;; k" := (bind m (fun _ => k))
  (at level 100, right associativity) : kt_scope.
Open Scope kt_scope.

Definition value {S A} (r : A * S * list event) : A := fst (fst r).
Definition state {S A} (r : A * S * list event) : S := snd (fst r).
Definition events {S A} (r : A * S * list event) : list event := snd r.

(** The kernel primitives, as events.  [mutex_lock_interruptible] is taken
    to succeed: the code ignores its result. *)
Definition mutex_lock_interruptible {S} (l : lock) : M S unit := emit (ev_mutex_lock l).
Definition mutex_unlock {S} (l : lock) : M S unit := emit (ev_mutex_unlock l).
Definition down_read {S} : M S unit := emit ev_down_read.
Definition up_read {S} : M S unit := emit ev_up_read.
Definition down_write {S} : M S unit := emit ev_down_write.
Definition up_write {S} : M S unit := emit ev_up_write.
Definition wake_up {S} (q : wait_queue) : M S unit := emit (ev_wake_up q).
Definition poll_wait {S} (q : wait_queue) : M S unit := emit (ev_poll_wait q).

Inductive wait_result := WaitDone | WaitSignal | WaitSleep.

(** [wait_event_interruptible(q, condition)] of the kernel: it returns 0
    at once when the condition holds; otherwise [-ERESTARTSYS] when a
    signal is pending; otherwise the caller sleeps on [q]. *)
Definition wait_event_interruptible (condition signal : bool) : wait_result :=
  if condition then WaitDone else if signal then WaitSignal else WaitSleep.

(** ** The server *)

(** [blocking_offset]: the loop over [client_list], with the locals
    [maxunread] and [offset] (here [off]). *)
Fixpoint blocking_offset_loop (srv : kerneltalk_server) (l : list nat)
    (maxunread off : Z) : Z :=
  match l with
  | [] => off
  | cnt :: rest =>
      if DIST (offset srv cnt) (end_ srv) >? maxunread
      then blocking_offset_loop srv rest (DIST (offset srv cnt) (end_ srv)) (offset srv cnt)
      else blocking_offset_loop srv rest maxunread off
  end.

Definition blocking_offset (srv : kerneltalk_server) : Z :=
  blocking_offset_loop srv (client_list srv) 0 (end_ srv).

Definition room_to_write : M kerneltalk_server Z :=
  mutex_lock_interruptible client_list_lock ;;
  b <- get blocking_offset ;;
  let maxidx := Z.rem (b + KERNELTALK_BUF - 1) KERNELTALK_BUF in
  mutex_unlock client_list_lock ;;
  e <- get end_ ;;
  ret (DIST e maxidx).

(** The number [room_to_write] returns. *)
Definition room (srv : kerneltalk_server) : Z := value (room_to_write srv).

(** The number of unread bytes of a client, [DIST(cnt->offset, srv->end)]. *)
Definition unread (cnt : nat) (srv : kerneltalk_server) : Z :=
  DIST (offset srv cnt) (end_ srv).

(** [create_client]: [kmalloc] is the address [kmalloc] returns, [None]
    for [NULL]. *)
Definition create_client (kmalloc : option nat) : M kerneltalk_server (option nat) :=
  match kmalloc with
  | None => ret None
  | Some cnt =>
      e <- get end_ ;;
      modify (set_offset cnt e) ;;
      mutex_lock_interruptible client_list_lock ;;
      modify (fun srv => set_client_list (cnt :: client_list srv) srv) ;;
      mutex_unlock client_list_lock ;;
      ret (Some cnt)
  end.

(** [list_del(&cnt->client_list)] *)
Definition list_del (cnt : nat) (l : list nat) : list nat :=
  filter (fun c => c <> cnt) l.

(** The server after [list_del] has unlinked the client [cnt]. *)
Definition left_ (cnt : nat) (srv : kerneltalk_server) : kerneltalk_server :=
  set_client_list (list_del cnt (client_list srv)) srv.

(** The copy loop of [kerneltalk_read]. *)
Fixpoint read_loop (cnt : nat) (length : nat) (bytes_read : Z)
    : M kerneltalk_server (Z * list byte) :=
  match length with
  | O => ret (bytes_read, [])
  | S length' =>
      d <- get (unread cnt) ;;
      if d >? 0 then
        c <- get (fun srv => buffer srv !!! Z.to_nat (offset srv cnt)) ;;
        modify (fun srv => set_offset cnt (Z.rem (offset srv cnt + 1) KERNELTALK_BUF) srv) ;;
        r <- read_loop cnt length' (bytes_read + 1) ;;
        ret (fst r, c :: snd r)
      else ret (bytes_read, [])
  end.

(** [kerneltalk_read]: the result is the outcome and the bytes stored in
    the user buffer. *)
Definition kerneltalk_read (cnt : nat) (O_NONBLOCK signal : bool) (length : nat)
    : M kerneltalk_server (outcome * list byte) :=
  down_read ;;
  d <- get (unread cnt) ;;
  if d =? 0 then
    up_read ;;
    if O_NONBLOCK then ret (Returned (- EAGAIN), [])
    else
      d' <- get (unread cnt) ;;
      match wait_event_interruptible (negb (d' =? 0)) signal with
      | WaitSignal => ret (Returned (- ERESTARTSYS), [])
      | WaitSleep => ret (Sleeping rwq, [])
      | WaitDone => ret (Reenter, [])
      end
  else
    r <- read_loop cnt length 0 ;;
    up_read ;;
    wake_up wwq ;;
    ret (Returned (fst r), snd r).

(** [kerneltalk_poll] *)
Definition kerneltalk_poll (cnt : nat) : M kerneltalk_server Z :=
  poll_wait rwq ;;
  poll_wait wwq ;;
  down_write ;;
  d <- get (unread cnt) ;;
  let mask := if d >? 0 then Z.lor 0 (Z.lor POLLIN POLLRDNORM) else 0 in
  r <- room_to_write ;;
  let mask := if r >? 0 then Z.lor mask (Z.lor POLLOUT POLLWRNORM) else mask in
  up_write ;;
  ret mask.

(** The copy loop of [kerneltalk_write]; [amt] is the length of [usrbuf]. *)
Fixpoint write_loop (room : Z) (usrbuf : list byte) (bytes_written : Z)
    : M kerneltalk_server Z :=
  if room >? 0 then
    match usrbuf with
    | [] => ret bytes_written
    | c :: usrbuf' =>
        modify (fun srv => set_buffer (<[Z.to_nat (end_ srv) := c]> (buffer srv)) srv) ;;
        modify (fun srv => set_end (Z.rem (end_ srv + 1) KERNELTALK_BUF) srv) ;;
        write_loop (room - 1) usrbuf' (bytes_written + 1)
    end
  else ret bytes_written.

(** [kerneltalk_write] *)
Definition kerneltalk_write (O_NONBLOCK signal : bool) (usrbuf : list byte)
    : M kerneltalk_server outcome :=
  down_write ;;
  room <- room_to_write ;;
  if room =? 0 then
    up_write ;;
    if O_NONBLOCK then ret (Returned (- EAGAIN))
    else
      room' <- room_to_write ;;
      match wait_event_interruptible (room' >? 0) signal with
      | WaitSignal => ret (Returned (- ERESTARTSYS))
      | WaitSleep => ret (Sleeping wwq)
      | WaitDone => ret Reenter
      end
  else
    bytes_written <- write_loop room usrbuf 0 ;;
    up_write ;;
    wake_up rwq ;;
    ret (Returned bytes_written).

(** ** The server list and the file operations *)

(** The server [create_server] builds for inode [i] in the memory [mem]
    that [kmalloc] returned: no client, [end = 0], the buffer as found. *)
Definition fresh_server (i : nat) (mem : list byte) : kerneltalk_server :=
  mk_server i [] (fun _ => 0) mem 0.

(** A server is named by its inode: [get_server] keeps one server per
    inode in [server_list].  The loop of [get_server]: *)
Fixpoint find_server (i : nat) (server_list : list kerneltalk_server)
    : option kerneltalk_server :=
  match server_list with
  | [] => None
  | srv :: rest => if Nat.eqb (inode srv) i then Some srv else find_server i rest
  end.

(** storing through the pointer to the server of inode [i] *)
Fixpoint store_server (i : nat) (srv' : kerneltalk_server)
    (server_list : list kerneltalk_server) : list kerneltalk_server :=
  match server_list with
  | [] => []
  | srv :: rest =>
      if Nat.eqb (inode srv) i then srv' :: rest else srv :: store_server i srv' rest
  end.

(** [list_del(&srv->server_list)] *)
Fixpoint unlink_server (i : nat) (server_list : list kerneltalk_server)
    : list kerneltalk_server :=
  match server_list with
  | [] => []
  | srv :: rest =>
      if Nat.eqb (inode srv) i then rest else srv :: unlink_server i rest
  end.

(** Running a function of the server on the server of inode [i], in
    place.  [d] is returned when no such server is in the list, which
    does not happen for the server of an open file. *)
Definition on_server {A} (i : nat) (m : M kerneltalk_server A) (d : A)
    : M (list kerneltalk_server) A :=
  fun server_list =>
    match find_server i server_list with
    | Some srv =>
        let '(a, srv', t) := m srv in (a, store_server i srv' server_list, t)
    | None => (d, server_list, [])
    end.

(** [create_server]: [kmalloc] is the memory [kmalloc] returned, [None]
    for [NULL]; the result is the server's name. *)
Definition create_server (i : nat) (kmalloc : option (list byte))
    : M (list kerneltalk_server) (option nat) :=
  match kmalloc with
  | None => ret None
  | Some mem =>
      modify (cons (fresh_server i mem)) ;;
      ret (Some i)
  end.

Definition get_server (i : nat) (kmalloc : option (list byte))
    : M (list kerneltalk_server) (option nat) :=
  found <- get (find_server i) ;;
  match found with
  | Some _ => ret (Some i)
  | None => create_server i kmalloc
  end.

(** [check_free_server]: on the freeing path the client list lock is not
    released, the server that holds it is gone. *)
Definition check_free_server (i : nat) : M (list kerneltalk_server) unit :=
  mutex_lock_interruptible client_list_lock ;;
  srv <- get (find_server i) ;;
  match option_map client_list srv with
  | Some [] => modify (unlink_server i)
  | _ => mutex_unlock client_list_lock
  end.

Definition kerneltalk_open (i : nat) (kmalloc_srv : option (list byte))
    (kmalloc_cnt : option nat) : M (list kerneltalk_server) Z :=
  mutex_lock_interruptible server_list_lock ;;
  srv <- get_server i kmalloc_srv ;;
  match srv with
  | None =>
      mutex_unlock server_list_lock ;;
      ret (- ENOMEM)
  | Some p =>
      cnt <- on_server p (create_client kmalloc_cnt) None ;;
      match cnt with
      | None =>
          check_free_server p ;;
          mutex_unlock server_list_lock ;;
          ret (- ENOMEM)
      | Some _ =>
          mutex_unlock server_list_lock ;;
          ret SUCCESS
      end
  end.

(** [kerneltalk_flush]: [i] names [cnt->server], [f_count] is the
    reference count of the file. *)
Definition kerneltalk_flush (i cnt : nat) (f_count : Z)
    : M (list kerneltalk_server) Z :=
  if negb (f_count =? 1) then ret SUCCESS
  else
    mutex_lock_interruptible client_list_lock ;;
    on_server i (modify (left_ cnt)) tt ;;
    mutex_unlock client_list_lock ;;
    mutex_lock_interruptible server_list_lock ;;
    check_free_server i ;;
    mutex_unlock server_list_lock ;;
    ret SUCCESS.

(** The five entries of [kerneltalk_fops], with what each call is given. *)
Inductive file_operation :=
| fop_open (i : nat) (kmalloc_srv : option (list byte)) (kmalloc_cnt : option nat)
| fop_flush (i cnt : nat) (f_count : Z)
| fop_read (i cnt : nat) (O_NONBLOCK signal : bool) (length : nat)
| fop_write (i : nat) (O_NONBLOCK signal : bool) (usrbuf : list byte)
| fop_poll (i cnt : nat).

(** The events of one call on the server list. *)
Definition call_events (f : file_operation) (server_list : list kerneltalk_server)
    : list event :=
  match f with
  | fop_open i kmalloc_srv kmalloc_cnt =>
      events (kerneltalk_open i kmalloc_srv kmalloc_cnt server_list)
  | fop_flush i cnt f_count =>
      events (kerneltalk_flush i cnt f_count server_list)
  | fop_read i cnt O_NONBLOCK signal length =>
      events (on_server i (kerneltalk_read cnt O_NONBLOCK signal length)
                (Returned 0, []) server_list)
  | fop_write i O_NONBLOCK signal usrbuf =>
      events (on_server i (kerneltalk_write O_NONBLOCK signal usrbuf)
                (Returned 0) server_list)
  | fop_poll i cnt =>
      events (on_server i (kerneltalk_poll cnt) 0 server_list)
  end.

(** * Part II: runs and specification functions *)

(** ** Runs of one channel *)

(** The calls that reach one server between its creation and its release.
    [op_open cnt]: [kerneltalk_open] on an existing server, [kmalloc]
    returning the unused address [cnt]; [op_flush cnt]: [kerneltalk_flush]
    with [f_count == 1]. *)
Inductive op :=
| op_open (cnt : nat)
| op_flush (cnt : nat)
| op_read (cnt : nat) (O_NONBLOCK signal : bool) (length : nat)
| op_write (O_NONBLOCK signal : bool) (usrbuf : list byte)
| op_poll (cnt : nat).

(** One call.  [None]: the call cannot happen (an address in use handed
    out again, a call on a file that is not open), or it was the flush of
    the last client, after which [check_free_server] frees the server. *)
Definition step (o : op) (srv : kerneltalk_server) : option kerneltalk_server :=
  match o with
  | op_open cnt =>
      if decide (cnt ∈ client_list srv) then None
      else Some (state (create_client (Some cnt) srv))
  | op_flush cnt =>
      if decide (cnt ∈ client_list srv) then
        match client_list (left_ cnt srv) with
        | [] => None
        | _ :: _ => Some (left_ cnt srv)
        end
      else None
  | op_read cnt O_NONBLOCK signal length =>
      if decide (cnt ∈ client_list srv)
      then Some (state (kerneltalk_read cnt O_NONBLOCK signal length srv))
      else None
  | op_write O_NONBLOCK signal usrbuf =>
      Some (state (kerneltalk_write O_NONBLOCK signal usrbuf srv))
  | op_poll cnt =>
      if decide (cnt ∈ client_list srv)
      then Some (state (kerneltalk_poll cnt srv))
      else None
  end.

Fixpoint run (ops : list op) (srv : kerneltalk_server) : option kerneltalk_server :=
  match ops with
  | [] => Some srv
  | o :: ops' =>
      match step o srv with
      | Some srv' => run ops' srv'
      | None => None
      end
  end.

(** The bytes a call to [write] took from its user buffer: the first
    [rv] of them when it returned [rv >= 0], none otherwise. *)
Definition taken (usrbuf : list byte) (r : outcome) : list byte :=
  match r with
  | Returned rv => take (Z.to_nat rv) usrbuf
  | _ => []
  end.

Definition accepted (o : op) (srv : kerneltalk_server) : list byte :=
  match o with
  | op_write O_NONBLOCK signal usrbuf =>
      taken usrbuf (value (kerneltalk_write O_NONBLOCK signal usrbuf srv))
  | _ => []
  end.

(** All the bytes written during a run, in order. *)
Fixpoint written_by (ops : list op) (srv : kerneltalk_server) : list byte :=
  match ops with
  | [] => []
  | o :: ops' =>
      accepted o srv ++
      match step o srv with
      | Some srv' => written_by ops' srv'
      | None => []
      end
  end.

(** All the bytes the reads of client [cnt] returned during a run. *)
Fixpoint delivered (cnt : nat) (ops : list op) (srv : kerneltalk_server) : list byte :=
  match ops with
  | [] => []
  | o :: ops' =>
      match o with
      | op_read c O_NONBLOCK signal length =>
          if decide (c = cnt)
          then snd (value (kerneltalk_read c O_NONBLOCK signal length srv))
          else []
      | _ => []
      end ++
      match step o srv with
      | Some srv' => delivered cnt ops' srv'
      | None => []
      end
  end.

(** The bytes handed to [write] during a run, whether taken or not. *)
Fixpoint submitted (ops : list op) : list byte :=
  match ops with
  | [] => []
  | op_write _ _ usrbuf :: ops' => usrbuf ++ submitted ops'
  | _ :: ops' => submitted ops'
  end.

(** [by_client cnt o]: the call [o] is a read or the flush of client [cnt]. *)
Definition by_client (cnt : nat) (o : op) : bool :=
  match o with
  | op_read c _ _ _ => Nat.eqb c cnt
  | op_flush c => Nat.eqb c cnt
  | _ => false
  end.

(** A run in which client [cnt] neither reads nor closes. *)
Definition quiet (cnt : nat) (ops : list op) : Prop :=
  forallb (fun o => negb (by_client cnt o)) ops = true.

(** A run that consists of reads of client [cnt] only. *)
Definition reads_of (cnt : nat) (ops : list op) : Prop :=
  forallb (fun o => match o with op_read c _ _ _ => Nat.eqb c cnt | _ => false end) ops = true.

(** ** Specification functions on the ring *)

Definition in_ring (o : Z) : Prop := 0 <= o < KERNELTALK_BUF.

(** [n] steps of [o = (o + 1) % KERNELTALK_BUF] *)
Fixpoint advance (o : Z) (n : nat) : Z :=
  match n with
  | O => o
  | S n' => advance (Z.rem (o + 1) KERNELTALK_BUF) n'
  end.

(** the [n] bytes stored from position [o] on, with wrap-around *)
Fixpoint ring_read (buf : list byte) (o : Z) (n : nat) : list byte :=
  match n with
  | O => []
  | S n' => (buf !!! Z.to_nat o) :: ring_read buf (Z.rem (o + 1) KERNELTALK_BUF) n'
  end.

(** the buffer after the bytes [w] are stored from position [e] on *)
Fixpoint ring_write (buf : list byte) (e : Z) (w : list byte) : list byte :=
  match w with
  | [] => buf
  | c :: w' => ring_write (<[Z.to_nat e := c]> buf) (Z.rem (e + 1) KERNELTALK_BUF) w'
  end.

(** the bytes a client has not read yet, oldest first *)
Definition pending (cnt : nat) (srv : kerneltalk_server) : list byte :=
  ring_read (buffer srv) (offset srv cnt) (Z.to_nat (unread cnt srv)).

(** the largest unread count over the client list, 0 when it is empty *)
Definition max_unread (srv : kerneltalk_server) : Z :=
  foldr Z.max 0 (map (fun cnt => unread cnt srv) (client_list srv)).

(** Well-formed servers: what [create_server] establishes and every file
    operation keeps (see [wf_fresh_server], [wf_step] and [wf_run]). *)
Record wf (srv : kerneltalk_server) : Prop := mk_wf {
  wf_end : in_ring (end_ srv);
  wf_buffer : Z.of_nat (length (buffer srv)) = KERNELTALK_BUF;
  wf_offset : forall cnt, cnt ∈ client_list srv -> in_ring (offset srv cnt);
  wf_nodup : NoDup (client_list srv)
}.

(** ** The states and the traces of the calls, in closed form *)

(** The server after [write_loop] has stored the bytes [w]. *)
Definition written (w : list byte) (srv : kerneltalk_server) : kerneltalk_server :=
  mk_server (inode srv) (client_list srv) (offset srv)
    (ring_write (buffer srv) (end_ srv) w) (advance (end_ srv) (length w)).

(** The server after the client [cnt] has taken [k] bytes: [k] rounds of
    [cnt->offset = (cnt->offset + 1) % KERNELTALK_BUF]. *)
Fixpoint consume (cnt : nat) (k : nat) (srv : kerneltalk_server) : kerneltalk_server :=
  match k with
  | O => srv
  | S k' => consume cnt k' (set_offset cnt (Z.rem (offset srv cnt + 1) KERNELTALK_BUF) srv)
  end.

(** The server after [create_client] has linked the new client [cnt]. *)
Definition joined (cnt : nat) (srv : kerneltalk_server) : kerneltalk_server :=
  mk_server (inode srv) (cnt :: client_list srv) (<[cnt := end_ srv]> (offset srv))
    (buffer srv) (end_ srv).

Definition write_wait (O_NONBLOCK signal : bool) : outcome :=
  if O_NONBLOCK then Returned (- EAGAIN)
  else if signal then Returned (- ERESTARTSYS) else Sleeping wwq.

Definition read_wait (O_NONBLOCK signal : bool) : outcome :=
  if O_NONBLOCK then Returned (- EAGAIN)
  else if signal then Returned (- ERESTARTSYS) else Sleeping rwq.

Definition room_events : list event :=
  [ev_mutex_lock client_list_lock; ev_mutex_unlock client_list_lock].

Definition client_events : list event :=
  [ev_mutex_lock client_list_lock; ev_mutex_unlock client_list_lock].

Definition write_events : list event :=
  ev_down_write :: room_events ++ [ev_up_write; ev_wake_up rwq].

Definition write_wait_events (O_NONBLOCK : bool) : list event :=
  ev_down_write :: room_events ++ ev_up_write :: (if O_NONBLOCK then [] else room_events).

Definition read_events : list event := [ev_down_read; ev_up_read; ev_wake_up wwq].

Definition read_wait_events : list event := [ev_down_read; ev_up_read].

Definition poll_events : list event :=
  [ev_poll_wait rwq; ev_poll_wait wwq; ev_down_write] ++ room_events ++ [ev_up_write].

(** The event traces a file operation can leave. *)
Definition open_traces : list (list event) :=
  [ [ev_mutex_lock server_list_lock; ev_mutex_unlock server_list_lock];
    [ev_mutex_lock server_list_lock; ev_mutex_lock client_list_lock;
     ev_mutex_unlock server_list_lock];
    [ev_mutex_lock server_list_lock; ev_mutex_lock client_list_lock;
     ev_mutex_unlock client_list_lock; ev_mutex_unlock server_list_lock] ].

Definition flush_traces : list (list event) :=
  [ [];
    [ev_mutex_lock client_list_lock; ev_mutex_unlock client_list_lock;
     ev_mutex_lock server_list_lock; ev_mutex_lock client_list_lock;
     ev_mutex_unlock server_list_lock];
    [ev_mutex_lock client_list_lock; ev_mutex_unlock client_list_lock;
     ev_mutex_lock server_list_lock; ev_mutex_lock client_list_lock;
     ev_mutex_unlock client_list_lock; ev_mutex_unlock server_list_lock] ].

Definition traces : list (list event) :=
  open_traces ++ flush_traces ++
  [read_wait_events; read_events; write_wait_events true; write_wait_events false;
   write_events; poll_events].

(** ** Lock order *)

Definition acquires (e : event) : option lock :=
  match e with
  | ev_mutex_lock l => Some l
  | ev_down_read | ev_down_write => Some buffer_lock
  | _ => None
  end.

Definition releases (e : event) : option lock :=
  match e with
  | ev_mutex_unlock l => Some l
  | ev_up_read | ev_up_write => Some buffer_lock
  | _ => None
  end.

(** The pairs [(outer, inner)] of a trace: the lock [inner] was taken
    while [outer] was held.  [held] are the locks held at the start. *)
Fixpoint nestings (held : list lock) (t : list event) : list (lock * lock) :=
  match t with
  | [] => []
  | e :: t' =>
      match acquires e with
      | Some l => map (fun h => (h, l)) held ++ nestings (l :: held) t'
      | None =>
          match releases e with
          | Some l => nestings (filter (fun h => h <> l) held) t'
          | None => nestings held t'
          end
      end
  end.

(** The nestings the code has: the client list lock inside the buffer
    lock, or inside the server list lock. *)
Definition nesting_ok (p : lock * lock) : Prop :=
  p = (buffer_lock, client_list_lock) \/ p = (server_list_lock, client_list_lock).

#[global] Instance nesting_ok_dec p : Decision (nesting_ok p).
Proof. unfold nesting_ok. apply _. Defined.

(** ** More on runs *)

(** A run in which client [cnt] does not close. *)
Definition stays (cnt : nat) (ops : list op) : Prop :=
  forallb (fun o => match o with op_flush c => negb (Nat.eqb c cnt) | _ => true end) ops
  = true.

(** ** Locks held *)

(** The locks held at the end of a trace, from the locks [held] at its start. *)
Fixpoint held_after (held : list lock) (t : list event) : list lock :=
  match t with
  | [] => held
  | e :: t' =>
      match acquires e with
      | Some l => held_after (l :: held) t'
      | None =>
          match releases e with
          | Some l => held_after (filter (fun h => h <> l) held) t'
          | None => held_after held t'
          end
      end
  end.

#[global] Instance wait_queue_eq_dec : EqDecision wait_queue.
Proof. solve_decision. Defined.

#[global] Instance event_eq_dec : EqDecision event.
Proof. solve_decision. Defined.

(** The wait queues woken during a trace, in order. *)
Definition wakes (t : list event) : list wait_queue :=
  omap (fun e => match e with ev_wake_up q => Some q | _ => None end) t.

(** ** Calls on the server list *)

(** The server list after one call. *)
Definition call_state (f : file_operation) (server_list : list kerneltalk_server)
    : list kerneltalk_server :=
  match f with
  | fop_open i kmalloc_srv kmalloc_cnt =>
      state (kerneltalk_open i kmalloc_srv kmalloc_cnt server_list)
  | fop_flush i cnt f_count =>
      state (kerneltalk_flush i cnt f_count server_list)
  | fop_read i cnt O_NONBLOCK signal length =>
      state (on_server i (kerneltalk_read cnt O_NONBLOCK signal length)
               (Returned 0, []) server_list)
  | fop_write i O_NONBLOCK signal usrbuf =>
      state (on_server i (kerneltalk_write O_NONBLOCK signal usrbuf)
               (Returned 0) server_list)
  | fop_poll i cnt =>
      state (on_server i (kerneltalk_poll cnt) 0 server_list)
  end.

(** The inode a call is about. *)
Definition call_inode (f : file_operation) : nat :=
  match f with
  | fop_open i _ _ | fop_flush i _ _ | fop_read i _ _ _ _
  | fop_write i _ _ _ | fop_poll i _ => i
  end.

(** What the kernel guarantees to a call: [kmalloc] returns memory of the
    size asked for that is not in use, and the [private_data] of a file
    that is read is a client of the file's server. *)
Definition valid_call (f : file_operation) (server_list : list kerneltalk_server) : Prop :=
  match f with
  | fop_open i kmalloc_srv kmalloc_cnt =>
      match kmalloc_srv with
      | Some mem => Z.of_nat (length mem) = KERNELTALK_BUF
      | None => True
      end /\
      match kmalloc_cnt, find_server i server_list with
      | Some cnt, Some srv => cnt ∉ client_list srv
      | _, _ => True
      end
  | fop_read i cnt _ _ _ =>
      match find_server i server_list with
      | Some srv => cnt ∈ client_list srv
      | None => True
      end
  | _ => True
  end.

#[global] Instance valid_call_dec f server_list : Decision (valid_call f server_list).
Proof.
  destruct f as [i [mem|] [cnt|]| | | |]; simpl;
    try destruct (find_server _ server_list); apply _.
Defined.

(** A sequence of calls, each valid where it is made. *)
Fixpoint valid_calls (fs : list file_operation) (server_list : list kerneltalk_server)
    : Prop :=
  match fs with
  | [] => True
  | f :: fs' => valid_call f server_list /\ valid_calls fs' (call_state f server_list)
  end.

#[global] Instance valid_calls_dec fs : forall server_list,
  Decision (valid_calls fs server_list).
Proof. induction fs as [|f fs IH]; intros sl; simpl; apply _. Defined.

Definition calls_state (fs : list file_operation)
    (server_list : list kerneltalk_server) : list kerneltalk_server :=
  foldl (fun sl f => call_state f sl) server_list fs.

(** The server list as the module keeps it: one server per inode, every
    server well formed and with at least one client. *)
Record dir_ok (server_list : list kerneltalk_server) : Prop := mk_dir_ok {
  dir_inodes : NoDup (map inode server_list);
  dir_servers : forall srv, srv ∈ server_list -> wf srv /\ client_list srv <> []
}.

(** ** The client program: [writeall] *)

(** How a call of [writeall] ends: the loop is left with nothing more to
    send; [write] failed and the program exits; [write] sleeps on [wwq]
    with [rest] still to send; or the model ran out of fuel. *)
Inductive writeall_result :=
| wa_return
| wa_exit
| wa_blocked (rest : list byte)
| wa_fuel.

(** [writeall] on a KernelTalk file, no signal arriving.  [amt] is the
    length of [buf]; [buf += rv; amt -= rv] drops the first [rv] bytes. *)
Fixpoint writeall (fuel : nat) (O_NONBLOCK : bool) (buf : list byte)
    : M kerneltalk_server writeall_result :=
  match fuel with
  | O => ret wa_fuel
  | S fuel' =>
      if Z.of_nat (length buf) >? 0 then
        rv <- kerneltalk_write O_NONBLOCK false buf ;;
        match rv with
        | Returned rv =>
            if rv <? 0 then ret wa_exit
            else writeall fuel' O_NONBLOCK (drop (Z.to_nat rv) buf)
        | Sleeping _ => ret (wa_blocked buf)
        | Reenter => writeall fuel' O_NONBLOCK buf
        end
      else ret wa_return
  end.

(** * Part III: lemmas and theorems *)

(** ** Arithmetic of [DIST] *)

Ltac ring_arith :=
  unfold in_ring, DIST, KERNELTALK_BUF in *;
  repeat match goal with
  | |- context [Z.leb ?a ?b] => destruct (Z.leb_spec a b)
  | H : context [Z.leb ?a ?b] |- _ => destruct (Z.leb_spec a b)
  end;
  Z.to_euclidean_division_equations; lia.

Lemma DIST_self a : DIST a a = 0.
Proof. ring_arith. Qed.

Lemma DIST_mod a b : in_ring a -> in_ring b -> DIST a b = (b - a) mod KERNELTALK_BUF.
Proof. intros; ring_arith. Qed.

Lemma DIST_range a b : in_ring a -> in_ring b -> 0 <= DIST a b < KERNELTALK_BUF.
Proof. intros; ring_arith. Qed.

Lemma DIST_zero a b : in_ring a -> in_ring b -> DIST a b = 0 -> a = b.
Proof. intros; ring_arith. Qed.

Lemma rem_in_ring o : 0 <= o -> in_ring (Z.rem o KERNELTALK_BUF).
Proof. intros; ring_arith. Qed.

Lemma advance_in_ring n : forall o, in_ring o -> in_ring (advance o n).
Proof.
  induction n as [|n IH]; intros o Ho; simpl; [done|].
  apply IH, rem_in_ring. unfold in_ring in Ho. lia.
Qed.

Lemma advance_mod n : forall o, in_ring o ->
  advance o n = (o + Z.of_nat n) mod KERNELTALK_BUF.
Proof.
  induction n as [|n IH]; intros o Ho; simpl advance.
  - ring_arith.
  - rewrite IH by (apply rem_in_ring; unfold in_ring in Ho; lia).
    ring_arith.
Qed.

Lemma DIST_advance o e (n : nat) :
  in_ring o -> in_ring e -> Z.of_nat n <= DIST o e ->
  DIST (advance o n) e = DIST o e - Z.of_nat n.
Proof.
  intros Ho He Hn. rewrite advance_mod by done. ring_arith.
Qed.

Lemma DIST_advance_end o e (n : nat) :
  in_ring o -> in_ring e -> DIST o e + Z.of_nat n < KERNELTALK_BUF ->
  DIST o (advance e n) = DIST o e + Z.of_nat n.
Proof.
  intros Ho He Hn. rewrite advance_mod by done. ring_arith.
Qed.

Lemma DIST_end_advance e (n : nat) :
  in_ring e -> Z.of_nat n < KERNELTALK_BUF -> DIST e (advance e n) = Z.of_nat n.
Proof.
  intros He Hn. rewrite advance_mod by done. ring_arith.
Qed.

(** ** The ring as a list: reading and writing with wrap-around *)

Lemma advance_neq o (i j : nat) :
  in_ring o -> (i < j)%nat -> Z.of_nat j - Z.of_nat i < KERNELTALK_BUF ->
  Z.to_nat (advance o i) <> Z.to_nat (advance o j).
Proof.
  intros Ho Hij Hlt. rewrite !advance_mod by done.
  intros Heq. apply Z2Nat.inj in Heq; ring_arith.
Qed.

Lemma ring_write_length w : forall buf e, length (ring_write buf e w) = length buf.
Proof.
  induction w as [|c w IH]; intros buf e; simpl; [done|].
  by rewrite IH, length_insert.
Qed.

Lemma ring_write_lookup_other w : forall buf e (j : nat),
  (forall i, (i < length w)%nat -> Z.to_nat (advance e i) <> j) ->
  ring_write buf e w !!! j = buf !!! j.
Proof.
  induction w as [|c w IH]; intros buf e j Hj; simpl; [done|].
  rewrite IH.
  - apply list_lookup_total_insert_ne. apply (Hj 0%nat). simpl; lia.
  - intros i Hi. apply (Hj (S i)). simpl; lia.
Qed.

Lemma ring_read_length n : forall buf o, length (ring_read buf o n) = n.
Proof. induction n as [|n IH]; intros buf o; simpl; [done|by rewrite IH]. Qed.

Lemma ring_read_ext n : forall buf1 buf2 o,
  (forall i, (i < n)%nat ->
     buf1 !!! Z.to_nat (advance o i) = buf2 !!! Z.to_nat (advance o i)) ->
  ring_read buf1 o n = ring_read buf2 o n.
Proof.
  induction n as [|n IH]; intros buf1 buf2 o H; simpl; [done|].
  f_equal.
  - apply (H 0%nat); lia.
  - apply IH. intros i Hi. apply (H (S i)); lia.
Qed.

Lemma ring_read_app n m : forall buf o,
  ring_read buf o (n + m) = ring_read buf o n ++ ring_read buf (advance o n) m.
Proof. induction n as [|n IH]; intros buf o; simpl; [done|by rewrite IH]. Qed.

Lemma ring_read_take n k buf o :
  (k <= n)%nat -> take k (ring_read buf o n) = ring_read buf o k.
Proof.
  intros Hk. replace n with (k + (n - k))%nat by lia.
  rewrite ring_read_app, take_app_length'; [done|by rewrite ring_read_length].
Qed.

Lemma ring_read_drop n k buf o :
  (k <= n)%nat -> drop k (ring_read buf o n) = ring_read buf (advance o k) (n - k).
Proof.
  intros Hk. replace n with (k + (n - k))%nat at 1 by lia.
  rewrite ring_read_app, drop_app_length'; [|by rewrite ring_read_length].
  by replace (k + (n - k) - k)%nat with (n - k)%nat by lia.
Qed.

Lemma ring_read_write_same w : forall buf e,
  in_ring e -> Z.of_nat (length buf) = KERNELTALK_BUF ->
  Z.of_nat (length w) <= KERNELTALK_BUF ->
  ring_read (ring_write buf e w) e (length w) = w.
Proof.
  induction w as [|c w IH]; intros buf e He Hlen Hw; simpl; [done|].
  simpl length in Hw.
  assert (He' : in_ring (Z.rem (e + 1) KERNELTALK_BUF))
    by (apply rem_in_ring; unfold in_ring in He; lia).
  f_equal.
  - rewrite ring_write_lookup_other.
    + apply list_lookup_total_insert_eq. unfold in_ring, KERNELTALK_BUF in *. lia.
    + intros i Hi.
      pose proof (advance_neq e 0 (S i) He) as Hne. simpl in Hne.
      intros Heq. apply Hne; [lia|lia|done].
  - apply IH; [done|by rewrite length_insert|lia].
Qed.

(** Writing [w] at [e] leaves the bytes from [o] up to [e] in place and
    appends [w] to them, as long as [e] does not run into [o]. *)
Lemma ring_read_write_append buf o e w :
  in_ring o -> in_ring e -> Z.of_nat (length buf) = KERNELTALK_BUF ->
  DIST o e + Z.of_nat (length w) < KERNELTALK_BUF ->
  ring_read (ring_write buf e w) o (Z.to_nat (DIST o e + Z.of_nat (length w)))
  = ring_read buf o (Z.to_nat (DIST o e)) ++ w.
Proof.
  intros Ho He Hlen Hroom.
  pose proof (DIST_range o e Ho He) as Hd.
  replace (Z.to_nat (DIST o e + Z.of_nat (length w)))
    with (Z.to_nat (DIST o e) + length w)%nat by lia.
  rewrite ring_read_app. f_equal.
  - apply ring_read_ext. intros i Hi.
    apply ring_write_lookup_other. intros j Hj.
    rewrite !advance_mod by done.
    intros Heq. apply Z2Nat.inj in Heq; ring_arith.
  - assert (advance o (Z.to_nat (DIST o e)) = e) as ->.
    { rewrite advance_mod by done. ring_arith. }
    apply ring_read_write_same; [done|done|lia].
Qed.

(** ** What each function computes *)

Lemma room_to_write_eq srv :
  room_to_write srv =
  (DIST (end_ srv) (Z.rem (blocking_offset srv + KERNELTALK_BUF - 1) KERNELTALK_BUF),
   srv, room_events).
Proof. reflexivity. Qed.

Lemma room_eq srv :
  room srv = DIST (end_ srv) (Z.rem (blocking_offset srv + KERNELTALK_BUF - 1) KERNELTALK_BUF).
Proof. reflexivity. Qed.

Lemma max_unread_ge srv cnt :
  cnt ∈ client_list srv -> unread cnt srv <= max_unread srv.
Proof.
  unfold max_unread. induction (client_list srv) as [|c l IH]; intros Hin.
  - by apply elem_of_nil in Hin.
  - apply elem_of_cons in Hin as [->|Hin]; simpl; [lia|].
    specialize (IH Hin). lia.
Qed.

Lemma max_unread_range srv : wf srv -> 0 <= max_unread srv < KERNELTALK_BUF.
Proof.
  intros [He _ Ho _]. unfold max_unread.
  induction (client_list srv) as [|c l IH]; simpl.
  - unfold KERNELTALK_BUF; lia.
  - pose proof (DIST_range _ _ (Ho c ltac:(left)) He) as Hc. fold (unread c srv) in Hc.
    assert (0 <= foldr Z.max 0 (map (fun cnt => unread cnt srv) l) < KERNELTALK_BUF).
    { apply IH. intros c' Hc'. apply Ho. by right. }
    lia.
Qed.

(** The loop of [blocking_offset] keeps [off] at distance [maxunread] from
    [end] and ends at the largest distance seen. *)
Lemma blocking_offset_loop_unread srv l : forall m off,
  in_ring off -> DIST off (end_ srv) = m ->
  (forall cnt, cnt ∈ l -> in_ring (offset srv cnt)) ->
  in_ring (blocking_offset_loop srv l m off) /\
  DIST (blocking_offset_loop srv l m off) (end_ srv)
  = Z.max m (foldr Z.max 0 (map (fun cnt => unread cnt srv) l)) \/
  (m < 0).
Proof.
  induction l as [|c l IH]; intros m off Hoff Hm Hl; simpl.
  - destruct (Z.max_spec m 0) as [[? ->]|[? ->]]; [|by left]. by right.
  - fold (unread c srv).
    assert (Hl' : forall cnt, cnt ∈ l -> in_ring (offset srv cnt))
      by (intros; apply Hl; by right).
    destruct (Z.gtb_spec (unread c srv) m) as [Hgt|Hle].
    + destruct (IH (unread c srv) (offset srv c)) as [[H1 H2]|H3];
        [apply Hl; by left|done|done| |lia].
      left. split; [done|]. rewrite H2. lia.
    + destruct (IH m off) as [[H1 H2]|H3]; [done|done|done| |by right].
      left. split; [done|]. rewrite H2. lia.
Qed.

Lemma blocking_offset_unread srv :
  wf srv ->
  in_ring (blocking_offset srv) /\
  DIST (blocking_offset srv) (end_ srv) = max_unread srv.
Proof.
  intros Hwf. pose proof (max_unread_range srv Hwf) as Hr.
  destruct Hwf as [He _ Ho _].
  destruct (blocking_offset_loop_unread srv (client_list srv) 0 (end_ srv))
    as [[H1 H2]|H3]; [done|apply DIST_self|done| |lia].
  split; [done|]. unfold blocking_offset, max_unread in *. rewrite H2. lia.
Qed.

(** The room is what is left of [KERNELTALK_BUF - 1] once the slowest
    client's unread bytes are counted. *)
Lemma room_max_unread srv :
  wf srv -> room srv = KERNELTALK_BUF - 1 - max_unread srv.
Proof.
  intros Hwf. rewrite room_eq.
  destruct (blocking_offset_unread srv Hwf) as [Hb Hd].
  pose proof (max_unread_range srv Hwf) as Hr.
  pose proof (wf_end srv Hwf) as He.
  rewrite <- Hd. clear Hd Hr. ring_arith.
Qed.

Lemma room_range srv : wf srv -> 0 <= room srv < KERNELTALK_BUF.
Proof.
  intros Hwf. rewrite room_max_unread by done.
  pose proof (max_unread_range srv Hwf). unfold KERNELTALK_BUF in *. lia.
Qed.

Lemma room_unread srv cnt :
  wf srv -> cnt ∈ client_list srv -> unread cnt srv + room srv < KERNELTALK_BUF.
Proof.
  intros Hwf Hin. rewrite room_max_unread by done.
  pose proof (max_unread_ge srv cnt Hin). lia.
Qed.

Lemma write_loop_eq usrbuf : forall room bytes_written srv,
  write_loop room usrbuf bytes_written srv =
  let w := take (Z.to_nat room) usrbuf in
  (bytes_written + Z.of_nat (length w), written w srv, []).
Proof.
  induction usrbuf as [|c usrbuf IH]; intros room bw srv.
  - simpl. rewrite take_nil, Z.add_0_r.
    destruct srv. by destruct (room >? 0).
  - simpl write_loop. destruct (Z.gtb_spec room 0) as [Hr|Hr].
    + unfold bind, modify. rewrite IH. simpl.
      replace (Z.to_nat room) with (S (Z.to_nat (room - 1))) by lia.
      simpl. f_equal. f_equal. lia.
    + replace (Z.to_nat room) with 0%nat by lia. unfold ret. simpl.
      rewrite Z.add_0_r. by destruct srv.
Qed.

Lemma kerneltalk_write_room O_NONBLOCK signal usrbuf srv :
  room srv <> 0 ->
  kerneltalk_write O_NONBLOCK signal usrbuf srv =
  let w := take (Z.to_nat (room srv)) usrbuf in
  (Returned (Z.of_nat (length w)), written w srv, write_events).
Proof.
  intros Hroom. unfold kerneltalk_write, bind, down_write, emit.
  rewrite room_to_write_eq. fold (room srv) in *. rewrite <- room_eq.
  destruct (Z.eqb_spec (room srv) 0) as [|_]; [done|].
  rewrite write_loop_eq. reflexivity.
Qed.

Lemma kerneltalk_write_no_room O_NONBLOCK signal usrbuf srv :
  room srv = 0 ->
  kerneltalk_write O_NONBLOCK signal usrbuf srv =
  (write_wait O_NONBLOCK signal, srv, write_wait_events O_NONBLOCK).
Proof.
  intros Hroom. unfold kerneltalk_write, bind, down_write, up_write, emit.
  rewrite room_to_write_eq. rewrite <- room_eq. rewrite Hroom.
  change (0 =? 0) with true. cbv iota beta.
  destruct O_NONBLOCK; [reflexivity|].
  rewrite room_to_write_eq. rewrite <- room_eq. rewrite Hroom.
  destruct signal; reflexivity.
Qed.

Lemma consume_offset cnt k : forall srv,
  offset (consume cnt k srv) cnt = advance (offset srv cnt) k.
Proof.
  induction k as [|k IH]; intros srv; simpl; [done|].
  rewrite IH. simpl. by rewrite fn_lookup_insert.
Qed.

Lemma consume_offset_other cnt c k : forall srv,
  c <> cnt -> offset (consume cnt k srv) c = offset srv c.
Proof.
  induction k as [|k IH]; intros srv Hc; simpl; [done|].
  rewrite IH by done. simpl. by rewrite fn_lookup_insert_ne.
Qed.

Lemma consume_fields cnt k : forall srv,
  inode (consume cnt k srv) = inode srv /\
  client_list (consume cnt k srv) = client_list srv /\
  buffer (consume cnt k srv) = buffer srv /\
  end_ (consume cnt k srv) = end_ srv.
Proof.
  induction k as [|k IH]; intros srv; simpl; [done|].
  destruct (IH (set_offset cnt (Z.rem (offset srv cnt + 1) KERNELTALK_BUF) srv))
    as (-> & -> & -> & ->). done.
Qed.

Lemma consume_client_list cnt k srv : client_list (consume cnt k srv) = client_list srv.
Proof. apply consume_fields. Qed.

Lemma consume_buffer cnt k srv : buffer (consume cnt k srv) = buffer srv.
Proof. apply consume_fields. Qed.

Lemma consume_end cnt k srv : end_ (consume cnt k srv) = end_ srv.
Proof. apply consume_fields. Qed.

Lemma read_loop_eq cnt length : forall bytes_read srv,
  in_ring (offset srv cnt) -> in_ring (end_ srv) ->
  read_loop cnt length bytes_read srv =
  let k := Nat.min length (Z.to_nat (unread cnt srv)) in
  ((bytes_read + Z.of_nat k, ring_read (buffer srv) (offset srv cnt) k),
   consume cnt k srv, []).
Proof.
  induction length as [|length IH]; intros br srv Ho He.
  - simpl. unfold ret. by rewrite Z.add_0_r.
  - simpl read_loop. unfold bind, get, modify.
    destruct (Z.gtb_spec (unread cnt srv) 0) as [Hd|Hd].
    + set (srv1 := set_offset cnt (Z.rem (offset srv cnt + 1) KERNELTALK_BUF) srv).
      assert (Ho1 : offset srv1 cnt = Z.rem (offset srv cnt + 1) KERNELTALK_BUF)
        by (simpl; by rewrite fn_lookup_insert).
      assert (Hd1 : unread cnt srv1 = unread cnt srv - 1).
      { unfold unread in *. rewrite Ho1. change (end_ srv1) with (end_ srv).
        revert Hd. generalize (offset srv cnt) (end_ srv) Ho He. clear.
        intros o e Ho He Hd. ring_arith. }
      rewrite IH; [|rewrite Ho1; apply rem_in_ring; unfold in_ring in Ho; lia|done].
      rewrite Hd1.
      replace (Nat.min (S length) (Z.to_nat (unread cnt srv)))
        with (S (Nat.min length (Z.to_nat (unread cnt srv - 1)))) by lia.
      rewrite Ho1. cbn [ring_read consume]. unfold ret. cbn [fst snd app].
      change (buffer srv1) with (buffer srv). fold srv1.
      f_equal. f_equal. f_equal. lia.
    + replace (Nat.min (S length) (Z.to_nat (unread cnt srv))) with 0%nat by lia.
      unfold ret. simpl. by rewrite Z.add_0_r.
Qed.

Lemma kerneltalk_read_data cnt O_NONBLOCK signal length srv :
  in_ring (offset srv cnt) -> in_ring (end_ srv) -> unread cnt srv <> 0 ->
  kerneltalk_read cnt O_NONBLOCK signal length srv =
  let k := Nat.min length (Z.to_nat (unread cnt srv)) in
  ((Returned (Z.of_nat k), ring_read (buffer srv) (offset srv cnt) k),
   consume cnt k srv, read_events).
Proof.
  intros Ho He Hd. unfold kerneltalk_read, bind, down_read, up_read, wake_up, emit, get.
  destruct (Z.eqb_spec (unread cnt srv) 0) as [|_]; [done|].
  rewrite read_loop_eq by done. reflexivity.
Qed.

Lemma kerneltalk_read_no_data cnt O_NONBLOCK signal length srv :
  unread cnt srv = 0 ->
  kerneltalk_read cnt O_NONBLOCK signal length srv =
  ((read_wait O_NONBLOCK signal, []), srv, [ev_down_read; ev_up_read]).
Proof.
  intros Hd. unfold kerneltalk_read, bind, down_read, up_read, emit, get.
  rewrite Hd. change (0 =? 0) with true. cbv iota beta.
  destruct O_NONBLOCK; [reflexivity|]. rewrite Hd.
  destruct signal; reflexivity.
Qed.

Lemma create_client_eq cnt srv :
  create_client (Some cnt) srv = (Some cnt, joined cnt srv, client_events).
Proof. reflexivity. Qed.

Lemma create_client_null srv : create_client None srv = (None, srv, []).
Proof. reflexivity. Qed.

(** ** Well-formedness is kept *)

Lemma wf_written w srv : wf srv -> wf (written w srv).
Proof.
  intros [He Hb Ho Hn]. split; simpl; [|by rewrite ring_write_length|done|done].
  by apply advance_in_ring.
Qed.

Lemma wf_consume cnt k srv : wf srv -> cnt ∈ client_list srv -> wf (consume cnt k srv).
Proof.
  intros [He Hb Ho Hn] Hin. split.
  - by rewrite consume_end.
  - by rewrite consume_buffer.
  - rewrite consume_client_list. intros c Hc.
    destruct (decide (c = cnt)) as [->|Hne].
    + rewrite consume_offset. by apply advance_in_ring, Ho.
    + rewrite consume_offset_other by done. by apply Ho.
  - by rewrite consume_client_list.
Qed.

Lemma wf_joined cnt srv : wf srv -> cnt ∉ client_list srv -> wf (joined cnt srv).
Proof.
  intros [He Hb Ho Hn] Hnew. split; simpl; [done|done| |by constructor].
  intros c Hc. destruct (decide (c = cnt)) as [->|Hne].
  - by rewrite fn_lookup_insert.
  - rewrite fn_lookup_insert_ne by done.
    apply Ho. apply elem_of_cons in Hc as [?|?]; [done|done].
Qed.

Lemma wf_left cnt srv : wf srv -> wf (left_ cnt srv).
Proof.
  intros [He Hb Ho Hn]. split; simpl; [done|done| |].
  - intros c Hc. apply Ho. unfold list_del in Hc.
    by apply list_elem_of_filter in Hc as [_ ?].
  - by apply list.NoDup_filter.
Qed.

Lemma wf_fresh_server i mem :
  Z.of_nat (length mem) = KERNELTALK_BUF -> wf (fresh_server i mem).
Proof.
  intros Hmem. split; simpl; [unfold in_ring, KERNELTALK_BUF; lia|done| |constructor].
  intros cnt Hc. by apply elem_of_nil in Hc.
Qed.

Lemma take_length_take {A} (n : nat) (l : list A) :
  take (length (take n l)) l = take n l.
Proof.
  rewrite length_take. destruct (Nat.le_gt_cases n (length l)).
  - by rewrite Nat.min_l.
  - rewrite Nat.min_r by lia. rewrite !take_ge; [done|lia|lia].
Qed.

Lemma kerneltalk_poll_state cnt srv : state (kerneltalk_poll cnt srv) = srv.
Proof. reflexivity. Qed.

Lemma kerneltalk_read_state cnt O_NONBLOCK signal length srv :
  wf srv -> cnt ∈ client_list srv ->
  state (kerneltalk_read cnt O_NONBLOCK signal length srv)
  = consume cnt (Nat.min length (Z.to_nat (unread cnt srv))) srv.
Proof.
  intros Hwf Hin. destruct (decide (unread cnt srv = 0)) as [H0|H0].
  - rewrite kerneltalk_read_no_data, H0 by done.
    by rewrite Nat.min_0_r.
  - rewrite kerneltalk_read_data; [done|by apply wf_offset|by apply wf_end|done].
Qed.

Lemma kerneltalk_write_state O_NONBLOCK signal usrbuf srv :
  state (kerneltalk_write O_NONBLOCK signal usrbuf srv)
  = written (taken usrbuf (value (kerneltalk_write O_NONBLOCK signal usrbuf srv))) srv
  \/ state (kerneltalk_write O_NONBLOCK signal usrbuf srv) = srv /\
     taken usrbuf (value (kerneltalk_write O_NONBLOCK signal usrbuf srv)) = [].
Proof.
  destruct (decide (room srv = 0)) as [H0|H0].
  - right. rewrite kerneltalk_write_no_room by done.
    by destruct O_NONBLOCK, signal.
  - left. rewrite kerneltalk_write_room by done. simpl.
    by rewrite Nat2Z.id, take_length_take.
Qed.

Lemma taken_room O_NONBLOCK signal usrbuf srv :
  wf srv ->
  Z.of_nat (length (taken usrbuf (value (kerneltalk_write O_NONBLOCK signal usrbuf srv))))
  <= room srv.
Proof.
  intros Hwf. pose proof (room_range srv Hwf) as Hr.
  destruct (decide (room srv = 0)) as [H0|H0].
  - rewrite kerneltalk_write_no_room by done.
    destruct O_NONBLOCK, signal; simpl; lia.
  - rewrite kerneltalk_write_room by done. simpl.
    rewrite Nat2Z.id, take_length_take, length_take. lia.
Qed.

Lemma wf_step o srv srv' : wf srv -> step o srv = Some srv' -> wf srv'.
Proof.
  intros Hwf. destruct o as [c|c|c nb sg len|nb sg buf|c]; cbn [step].
  - destruct (decide _); [done|]. rewrite create_client_eq.
    intros [= <-]. by apply wf_joined.
  - destruct (decide _); [|done].
    destruct (client_list (left_ c srv)) eqn:E; [done|].
    intros [= <-]. by apply wf_left.
  - destruct (decide _); [|done]. intros [= <-].
    rewrite kerneltalk_read_state by done. by apply wf_consume.
  - intros [= <-].
    destruct (kerneltalk_write_state nb sg buf srv) as [->|[-> _]]; [|done].
    by apply wf_written.
  - destruct (decide _); [|done]. by intros [= <-].
Qed.

Lemma wf_run ops : forall srv srv', wf srv -> run ops srv = Some srv' -> wf srv'.
Proof.
  induction ops as [|o ops IH]; intros srv srv' Hwf; simpl.
  - by intros [= <-].
  - destruct (step o srv) as [srv1|] eqn:E; [|done].
    apply IH. by apply (wf_step o srv).
Qed.

(** ** The unread bytes of a client along a run *)

Lemma unread_pending cnt srv :
  wf srv -> cnt ∈ client_list srv ->
  Z.of_nat (length (pending cnt srv)) = unread cnt srv.
Proof.
  intros Hwf Hin. unfold pending. rewrite ring_read_length.
  pose proof (DIST_range _ _ (wf_offset srv Hwf cnt Hin) (wf_end srv Hwf)).
  unfold unread. lia.
Qed.

Lemma pending_same cnt srv srv' :
  offset srv' cnt = offset srv cnt -> buffer srv' = buffer srv -> end_ srv' = end_ srv ->
  pending cnt srv' = pending cnt srv /\ unread cnt srv' = unread cnt srv.
Proof. unfold pending, unread. by intros -> -> ->. Qed.

Lemma pending_written cnt w srv :
  wf srv -> cnt ∈ client_list srv -> Z.of_nat (length w) <= room srv ->
  pending cnt (written w srv) = pending cnt srv ++ w /\
  unread cnt (written w srv) = unread cnt srv + Z.of_nat (length w).
Proof.
  intros Hwf Hin Hw.
  pose proof (room_unread srv cnt Hwf Hin) as Hroom.
  pose proof (wf_offset srv Hwf cnt Hin) as Ho.
  pose proof (wf_end srv Hwf) as He.
  assert (Hu : unread cnt (written w srv) = unread cnt srv + Z.of_nat (length w)).
  { unfold unread in *. simpl. apply DIST_advance_end; [done|done|lia]. }
  split; [|done]. unfold pending. rewrite Hu. unfold unread in *. simpl.
  apply ring_read_write_append; [done|done|by apply wf_buffer|lia].
Qed.

Lemma pending_consume cnt k srv :
  wf srv -> cnt ∈ client_list srv -> Z.of_nat k <= unread cnt srv ->
  pending cnt (consume cnt k srv) = drop k (pending cnt srv) /\
  unread cnt (consume cnt k srv) = unread cnt srv - Z.of_nat k.
Proof.
  intros Hwf Hin Hk.
  pose proof (wf_offset srv Hwf cnt Hin) as Ho.
  pose proof (wf_end srv Hwf) as He.
  assert (Hu : unread cnt (consume cnt k srv) = unread cnt srv - Z.of_nat k).
  { unfold unread in *. rewrite consume_offset, consume_end.
    by apply DIST_advance. }
  split; [|done]. unfold pending. rewrite Hu.
  rewrite consume_buffer, consume_offset, ring_read_drop by lia.
  f_equal. lia.
Qed.

Lemma pending_consume_other cnt c k srv :
  c <> cnt ->
  pending cnt (consume c k srv) = pending cnt srv /\
  unread cnt (consume c k srv) = unread cnt srv.
Proof.
  intros Hne. apply pending_same;
    [by apply consume_offset_other|apply consume_buffer|apply consume_end].
Qed.

Lemma pending_joined cnt srv : pending cnt (joined cnt srv) = [].
Proof.
  unfold pending, unread. simpl. by rewrite fn_lookup_insert, DIST_self.
Qed.

Lemma unread_joined cnt srv : unread cnt (joined cnt srv) = 0.
Proof. unfold unread. simpl. by rewrite fn_lookup_insert, DIST_self. Qed.

(** What a read returns and leaves, in terms of the unread bytes. *)
Lemma kerneltalk_read_pending cnt O_NONBLOCK signal length srv :
  wf srv -> cnt ∈ client_list srv ->
  let r := kerneltalk_read cnt O_NONBLOCK signal length srv in
  snd (value r) = take length (pending cnt srv) /\
  pending cnt (state r) = drop length (pending cnt srv).
Proof.
  intros Hwf Hin r.
  pose proof (unread_pending cnt srv Hwf Hin) as Hlen.
  pose proof (wf_offset srv Hwf cnt Hin) as Ho.
  pose proof (wf_end srv Hwf) as He.
  subst r. destruct (decide (unread cnt srv = 0)) as [H0|H0].
  - rewrite kerneltalk_read_no_data by done. cbn [value state fst snd].
    assert (pending cnt srv = []) as -> by (apply nil_length_inv; lia).
    by rewrite take_nil, drop_nil.
  - rewrite kerneltalk_read_data by done. cbn [value state fst snd].
    set (k := Nat.min length (Z.to_nat (unread cnt srv))).
    destruct (pending_consume cnt k srv) as [-> _]; [done|done|lia|].
    split.
    + unfold pending. rewrite <- (ring_read_take (Z.to_nat (unread cnt srv)) k) by lia.
      destruct (Nat.le_gt_cases length (Z.to_nat (unread cnt srv))).
      * by replace k with length by lia.
      * replace k with (Z.to_nat (unread cnt srv)) by lia.
        rewrite !take_ge; [done|rewrite ring_read_length; lia|rewrite ring_read_length; lia].
    + destruct (Nat.le_gt_cases length (Z.to_nat (unread cnt srv))).
      * by replace k with length by lia.
      * rewrite !drop_ge; [done|lia|lia].
Qed.

(** A call that is not a read or the flush of [cnt] appends what it wrote
    to the unread bytes of [cnt] and changes nothing else of them. *)
Lemma pending_step cnt o srv srv' :
  wf srv -> cnt ∈ client_list srv -> by_client cnt o = false ->
  step o srv = Some srv' ->
  cnt ∈ client_list srv' /\ pending cnt srv' = pending cnt srv ++ accepted o srv.
Proof.
  intros Hwf Hin Hq.
  destruct o as [c|c|c nb sg len|nb sg buf|c]; cbn [step accepted by_client] in *.
  - destruct (decide _) as [|Hnew]; [done|]. rewrite create_client_eq. intros [= <-].
    split; [simpl; by right|]. rewrite app_nil_r.
    apply pending_same; [|done|done]. simpl.
    apply fn_lookup_insert_ne. by intros ->.
  - apply Nat.eqb_neq in Hq.
    destruct (decide _); [|done].
    destruct (client_list (left_ c srv)) eqn:E; [done|]. intros [= <-].
    rewrite E, app_nil_r. split; [|by apply pending_same].
    rewrite <- E. simpl. unfold list_del. apply list_elem_of_filter. split; [congruence|done].
  - apply Nat.eqb_neq in Hq.
    destruct (decide _); [|done]. intros [= <-].
    rewrite kerneltalk_read_state by done. rewrite consume_client_list, app_nil_r.
    split; [done|]. by apply pending_consume_other.
  - intros [= <-].
    pose proof (taken_room nb sg buf srv Hwf) as Hroom.
    destruct (kerneltalk_write_state nb sg buf srv) as [->|[-> ->]].
    + split; [done|]. by apply pending_written.
    + by rewrite app_nil_r.
  - destruct (decide _); [|done]. intros [= <-].
    by rewrite kerneltalk_poll_state, app_nil_r.
Qed.

Lemma pending_run cnt ops : forall srv srv',
  wf srv -> cnt ∈ client_list srv -> quiet cnt ops ->
  run ops srv = Some srv' ->
  cnt ∈ client_list srv' /\ pending cnt srv' = pending cnt srv ++ written_by ops srv.
Proof.
  unfold quiet.
  induction ops as [|o ops IH]; intros srv srv' Hwf Hin Hq; simpl in *.
  - intros [= <-]. by rewrite app_nil_r.
  - apply andb_prop in Hq as [Hq1 Hq2]. apply negb_true_iff in Hq1.
    destruct (step o srv) as [srv1|] eqn:E; [|done]. intros Hrun.
    destruct (pending_step cnt o srv srv1) as [Hin1 Hp1]; [done..|].
    destruct (IH srv1 srv') as [Hin' Hp']; [by apply (wf_step o srv)|done..|].
    split; [done|]. by rewrite Hp', Hp1, app_assoc.
Qed.

(** The reads of a client return its unread bytes from the front. *)
Lemma delivered_reads cnt ops : forall srv srv',
  wf srv -> cnt ∈ client_list srv -> reads_of cnt ops ->
  run ops srv = Some srv' ->
  pending cnt srv = delivered cnt ops srv ++ pending cnt srv'.
Proof.
  unfold reads_of.
  induction ops as [|o ops IH]; intros srv srv' Hwf Hin Hr; simpl in *.
  - by intros [= <-].
  - apply andb_prop in Hr as [Hr1 Hr2].
    destruct o as [c|c|c nb sg len|nb sg buf|c]; try done.
    apply Nat.eqb_eq in Hr1 as ->.
    destruct (step _ srv) as [srv1|] eqn:E; [|done]. intros Hrun.
    pose proof E as E'. cbn [step] in E'.
    destruct (decide (cnt ∈ client_list srv)); [|done]. injection E' as E'.
    destruct (kerneltalk_read_pending cnt nb sg len srv Hwf Hin) as [Hv Hp].
    rewrite E' in Hp.
    destruct (decide (cnt = cnt)); [|done].
    rewrite Hv, <- app_assoc, <- (IH srv1 srv'); [| |  |done|done].
    + by rewrite Hp, take_drop.
    + by apply (wf_step _ srv _ Hwf E).
    + rewrite <- E', kerneltalk_read_state by done. by rewrite consume_client_list.
Qed.

(** ** The slowest client *)

(** Well-formedness of a server given by its fields. *)
Ltac wf_concrete :=
  split;
  [ by vm_compute
  | reflexivity
  | let c := fresh "c" in let Hc := fresh "Hc" in
    intros c Hc;
    repeat (apply elem_of_cons in Hc as [->|Hc]; [by vm_compute|]);
    by apply elem_of_nil in Hc
  | compute_done ].

(** The loop of [blocking_offset] started with [maxunread = m] and
    [offset = off]: either no client has more than [m] unread bytes and
    [off] comes back, or the offset of the first client with the largest
    unread count comes back. *)
Lemma blocking_offset_loop_first srv l : forall m off,
  (forall cnt, cnt ∈ l -> unread cnt srv <= m) /\
  blocking_offset_loop srv l m off = off
  \/
  exists (i : nat) cnt,
    l !! i = Some cnt /\
    blocking_offset_loop srv l m off = offset srv cnt /\
    m < unread cnt srv /\
    (forall c, c ∈ l -> unread c srv <= unread cnt srv) /\
    (forall (j : nat) c, (j < i)%nat -> l !! j = Some c -> unread c srv < unread cnt srv).
Proof.
  induction l as [|c0 l IH]; intros m off; simpl.
  - left. split; [|done]. intros cnt H. by apply elem_of_nil in H.
  - fold (unread c0 srv). destruct (Z.gtb_spec (unread c0 srv) m) as [Hgt|Hle].
    + right. destruct (IH (unread c0 srv) (offset srv c0))
        as [[Hall ->]|(i & cnt & Hi & -> & Hm & Hmax & Hfirst)].
      * exists 0%nat, c0. repeat split; [done|..].
        -- intros c Hc. apply elem_of_cons in Hc as [->|Hc]; [lia|by apply Hall].
        -- intros j c Hj. lia.
      * exists (S i), cnt. repeat split; [done|lia|..].
        -- intros c Hc. apply elem_of_cons in Hc as [->|Hc]; [lia|by apply Hmax].
        -- intros [|j] c Hj Hc; simpl in Hc.
           ++ injection Hc as <-. lia.
           ++ apply (Hfirst j); [lia|done].
    + destruct (IH m off) as [[Hall ->]|(i & cnt & Hi & -> & Hm & Hmax & Hfirst)].
      * left. split; [|done].
        intros c Hc. apply elem_of_cons in Hc as [->|Hc]; [lia|by apply Hall].
      * right. exists (S i), cnt. repeat split; [done|lia|..].
        -- intros c Hc. apply elem_of_cons in Hc as [->|Hc]; [lia|by apply Hmax].
        -- intros [|j] c Hj Hc; simpl in Hc.
           ++ injection Hc as <-. lia.
           ++ apply (Hfirst j); [lia|done].
Qed.

(** C6. [blocking_offset] (the spec's slowest_offset) returns [end] when
    the client list is empty; otherwise it returns the offset of a client
    whose unread count is the largest, and of the clients with that count
    the first in iteration order: every client before it in the list has
    strictly fewer unread bytes. *)
Theorem blocking_offset_first_slowest (srv : kerneltalk_server) :
  wf srv ->
  (client_list srv = [] -> blocking_offset srv = end_ srv) /\
  (client_list srv <> [] ->
   exists (i : nat) cnt,
     client_list srv !! i = Some cnt /\
     blocking_offset srv = offset srv cnt /\
     (forall c, c ∈ client_list srv -> unread c srv <= unread cnt srv) /\
     (forall (j : nat) c, (j < i)%nat -> client_list srv !! j = Some c ->
        unread c srv < unread cnt srv)).
Proof.
  intros Hwf. split.
  - unfold blocking_offset. by intros ->.
  - intros Hne. unfold blocking_offset.
    destruct (blocking_offset_loop_first srv (client_list srv) 0 (end_ srv))
      as [[Hall ->]|(i & cnt & Hi & -> & Hm & Hmax & Hfirst)].
    + destruct (client_list srv) as [|c0 l] eqn:E; [done|].
      assert (Hc0 : c0 ∈ client_list srv) by (rewrite E; by left).
      assert (Hzero : forall c, c ∈ client_list srv -> unread c srv = 0).
      { intros c Hc.
        pose proof (DIST_range _ _ (wf_offset srv Hwf c Hc) (wf_end srv Hwf)) as Hr.
        fold (unread c srv) in Hr. rewrite E in Hc. specialize (Hall c Hc). lia. }
      exists 0%nat, c0. repeat split; [| |intros j c Hj; lia].
      * symmetry. apply DIST_zero;
          [by apply wf_offset|by apply wf_end|by apply Hzero].
      * intros c Hc. rewrite <- E in Hc. rewrite (Hzero c Hc), (Hzero c0 Hc0). lia.
    + exists i, cnt. done.
Qed.

Lemma blocking_offset_first_slowest_witness :
  let srv := mk_server 0 [3; 2; 1]%nat
               (fun c => match c with 1%nat => 5 | 2%nat => 5 | _ => 7 end)
               (replicate 2048 x00) 9 in
  wf srv /\ blocking_offset srv = 5 /\
  exists (i : nat) cnt,
    client_list srv !! i = Some cnt /\
    blocking_offset srv = offset srv cnt /\
    (forall c, c ∈ client_list srv -> unread c srv <= unread cnt srv) /\
    (forall (j : nat) c, (j < i)%nat -> client_list srv !! j = Some c ->
       unread c srv < unread cnt srv).
Proof.
  intros srv.
  assert (Hwf : wf srv).
  { wf_concrete. }
  split; [done|]. split; [reflexivity|].
  apply (blocking_offset_first_slowest srv Hwf). done.
Defined.

(** ** Postconditions of [write] and [read] *)

(** C3. On a well-formed server with [room_to_write = room > 0], [write]
    of the bytes [usrbuf] returns [n = min(room, len(usrbuf))]; the [n]
    buffer slots from [end] on (with wrap-around) hold the first [n] bytes
    of [usrbuf] and every other slot is as before; [end] has advanced by
    [n] modulo [KERNELTALK_BUF]; the client list and every client's offset
    are unchanged. *)
Theorem write_postcondition (O_NONBLOCK signal : bool) (usrbuf : list byte)
    (srv : kerneltalk_server) :
  wf srv -> room srv > 0 ->
  let r := kerneltalk_write O_NONBLOCK signal usrbuf srv in
  let n := Z.min (room srv) (Z.of_nat (length usrbuf)) in
  value r = Returned n /\
  ring_read (buffer (state r)) (end_ srv) (Z.to_nat n) = take (Z.to_nat n) usrbuf /\
  (forall j : nat,
     (forall i : nat, (i < Z.to_nat n)%nat ->
        Z.to_nat ((end_ srv + Z.of_nat i) mod KERNELTALK_BUF) <> j) ->
     buffer (state r) !!! j = buffer srv !!! j) /\
  end_ (state r) = (end_ srv + n) mod KERNELTALK_BUF /\
  offset (state r) = offset srv /\
  client_list (state r) = client_list srv.
Proof.
  intros Hwf Hroom r n. subst r.
  pose proof (room_range srv Hwf) as Hr.
  pose proof (wf_end srv Hwf) as He.
  rewrite kerneltalk_write_room by lia. cbn [value state fst snd].
  set (w := take (Z.to_nat (room srv)) usrbuf).
  assert (Hn : Z.of_nat (length w) = n).
  { unfold w, n. rewrite length_take. lia. }
  assert (Hw : take (Z.to_nat n) usrbuf = w).
  { rewrite <- Hn, Nat2Z.id. apply take_length_take. }
  rewrite Hw. repeat split.
  - by rewrite Hn.
  - simpl. rewrite <- Hn, Nat2Z.id.
    apply ring_read_write_same; [done|by apply wf_buffer|lia].
  - intros j Hj. simpl. apply ring_write_lookup_other.
    intros i Hi. rewrite advance_mod by done. apply Hj. lia.
  - simpl. rewrite advance_mod by done. by rewrite Hn.
Qed.

Lemma write_postcondition_witness :
  let srv := mk_server 0 [1]%nat (fun _ => 2046) (replicate 2048 x00) 2046 in
  let r := kerneltalk_write false false [x01; x02; x03] srv in
  wf srv /\ room srv > 0 /\ value r = Returned 3 /\ end_ (state r) = 1 /\
  ring_read (buffer (state r)) 2046 3 = [x01; x02; x03].
Proof.
  intros srv r.
  assert (Hwf : wf srv).
  { wf_concrete. }
  assert (Hroom : room srv > 0) by reflexivity.
  destruct (write_postcondition false false [x01; x02; x03] srv Hwf Hroom)
    as (Hv & Hb & _ & He & _).
  exact (conj Hwf (conj Hroom (conj Hv (conj He Hb)))).
Defined.

(** C4. On a well-formed server, for a client with [unread > 0] bytes,
    [read] with room for [length] bytes returns [n = min(unread, length)]
    and the [n] bytes stored from the client's offset on; the client's
    offset has advanced by [n] modulo [KERNELTALK_BUF]; [end], the buffer,
    the client list and every other client's offset are unchanged. *)
Theorem read_postcondition (cnt : nat) (O_NONBLOCK signal : bool) (length : nat)
    (srv : kerneltalk_server) :
  wf srv -> cnt ∈ client_list srv -> unread cnt srv > 0 ->
  let r := kerneltalk_read cnt O_NONBLOCK signal length srv in
  let n := Z.min (unread cnt srv) (Z.of_nat length) in
  value r = (Returned n, ring_read (buffer srv) (offset srv cnt) (Z.to_nat n)) /\
  offset (state r) cnt = (offset srv cnt + n) mod KERNELTALK_BUF /\
  end_ (state r) = end_ srv /\
  buffer (state r) = buffer srv /\
  client_list (state r) = client_list srv /\
  (forall c, c <> cnt -> offset (state r) c = offset srv c).
Proof.
  intros Hwf Hin Hd r n. subst r.
  pose proof (wf_offset srv Hwf cnt Hin) as Ho.
  pose proof (wf_end srv Hwf) as He.
  rewrite kerneltalk_read_data by (done || lia). cbn [value state fst snd].
  set (k := Nat.min length (Z.to_nat (unread cnt srv))).
  assert (Hk : Z.of_nat k = n) by (unfold k, n; lia).
  rewrite <- Hk, Nat2Z.id. repeat split.
  - rewrite consume_offset. by apply advance_mod.
  - apply consume_end.
  - apply consume_buffer.
  - apply consume_client_list.
  - intros c Hc. by apply consume_offset_other.
Qed.

Lemma read_postcondition_witness :
  let srv := mk_server 0 [2; 1]%nat (fun c => match c with 1%nat => 2047 | _ => 1 end)
               (<[2047%nat := x07]> (<[0%nat := x08]> (replicate 2048 x00))) 1 in
  let r := kerneltalk_read 1 true false 5 srv in
  wf srv /\ unread 1 srv > 0 /\
  value r = (Returned 2, [x07; x08]) /\ offset (state r) 1%nat = 1 /\
  offset (state r) 2%nat = 1.
Proof.
  intros srv r.
  assert (Hwf : wf srv).
  { wf_concrete. }
  assert (Hin : 1%nat ∈ client_list srv) by (right; left).
  assert (Hd : unread 1 srv > 0) by reflexivity.
  destruct (read_postcondition 1 true false 5 srv Hwf Hin Hd)
    as (Hv & Ho & _ & _ & _ & Hother).
  refine (conj Hwf (conj Hd (conj Hv (conj Ho _)))).
  unfold r. by rewrite (Hother 2%nat).
Defined.

(** ** Calls that cannot make progress *)

(** C7. A non-blocking [read] by a client with no unread byte, and a
    non-blocking [write] when [room_to_write] is 0, return [-EAGAIN],
    transfer no byte and leave the server ([end], the buffer, every
    client's offset) exactly as it was. *)
Theorem nonblocking_would_block (cnt : nat) (signal : bool) (length : nat)
    (usrbuf : list byte) (srv : kerneltalk_server) :
  (unread cnt srv = 0 ->
   let r := kerneltalk_read cnt true signal length srv in
   value r = (Returned (- EAGAIN), []) /\ state r = srv) /\
  (room srv = 0 ->
   let r := kerneltalk_write true signal usrbuf srv in
   value r = Returned (- EAGAIN) /\ taken usrbuf (value r) = [] /\ state r = srv).
Proof.
  split.
  - intros Hd. by rewrite kerneltalk_read_no_data.
  - intros Hroom. by rewrite kerneltalk_write_no_room.
Qed.

Lemma nonblocking_would_block_witness :
  let srv := mk_server 0 [2; 1]%nat (fun c => match c with 1%nat => 5 | _ => 6 end)
               (replicate 2048 x00) 5 in
  unread 1 srv = 0 /\ room srv = 0 /\
  (let r := kerneltalk_read 1 true false 4 srv in
   value r = (Returned (- EAGAIN), []) /\ state r = srv) /\
  (let r := kerneltalk_write true false [x01] srv in
   value r = Returned (- EAGAIN) /\ taken [x01] (value r) = [] /\ state r = srv).
Proof.
  intros srv.
  destruct (nonblocking_would_block 1 false 4 [x01] srv) as [Hr Hw].
  exact (conj eq_refl (conj eq_refl (conj (Hr eq_refl) (Hw eq_refl)))).
Defined.

(** C10. The test for data or room comes before any look at the length: a
    non-blocking [read] of 0 bytes by a client with nothing unread and a
    non-blocking [write] of no byte when there is no room return [-EAGAIN];
    the same calls return 0 when there is something unread or some room. *)
Theorem zero_length_would_block (cnt : nat) (signal : bool) (srv : kerneltalk_server) :
  (unread cnt srv = 0 ->
   value (kerneltalk_read cnt true signal 0 srv) = (Returned (- EAGAIN), [])) /\
  (room srv = 0 ->
   value (kerneltalk_write true signal [] srv) = Returned (- EAGAIN)) /\
  (unread cnt srv <> 0 ->
   value (kerneltalk_read cnt true signal 0 srv) = (Returned 0, [])) /\
  (room srv <> 0 ->
   value (kerneltalk_write true signal [] srv) = Returned 0).
Proof.
  repeat split.
  - intros Hd. by rewrite kerneltalk_read_no_data.
  - intros Hroom. by rewrite kerneltalk_write_no_room.
  - intros Hd. unfold kerneltalk_read, bind, down_read, emit, get.
    by destruct (Z.eqb_spec (unread cnt srv) 0).
  - intros Hroom. rewrite kerneltalk_write_room by done.
    cbn [value fst]. by rewrite take_nil.
Qed.

Lemma zero_length_would_block_witness :
  let srv := mk_server 0 [2; 1]%nat (fun c => match c with 1%nat => 5 | _ => 6 end)
               (replicate 2048 x00) 5 in
  let srv' := mk_server 0 [1]%nat (fun _ => 4) (replicate 2048 x00) 5 in
  (unread 1 srv = 0 /\ room srv = 0 /\
   value (kerneltalk_read 1 true false 0 srv) = (Returned (- EAGAIN), []) /\
   value (kerneltalk_write true false [] srv) = Returned (- EAGAIN)) /\
  (unread 1 srv' <> 0 /\ room srv' <> 0 /\
   value (kerneltalk_read 1 true false 0 srv') = (Returned 0, []) /\
   value (kerneltalk_write true false [] srv') = Returned 0).
Proof.
  intros srv srv'.
  destruct (zero_length_would_block 1 false srv) as (Hr & Hw & _ & _).
  destruct (zero_length_would_block 1 false srv') as (_ & _ & Hr' & Hw').
  assert (Hu' : unread 1 srv' <> 0) by (by vm_compute).
  assert (Hm' : room srv' <> 0) by (by vm_compute).
  exact (conj (conj eq_refl (conj eq_refl (conj (Hr eq_refl) (Hw eq_refl))))
              (conj Hu' (conj Hm' (conj (Hr' Hu') (Hw' Hm'))))).
Defined.

(** ** Writes never run into unread bytes *)

(** C1. On every server reached by a sequence of open, flush, read, write
    and poll calls from its creation, a [write] moves [end] no further than
    [room_to_write] allows, that is not past
    [(blocking_offset - 1) mod KERNELTALK_BUF]; and for every client in the
    list, the offset is untouched and the unread bytes are all still
    there, in order, followed by the bytes this [write] took. *)
Theorem no_overwrite_invariant (i : nat) (mem : list byte) (ops : list op)
    (srv : kerneltalk_server) (O_NONBLOCK signal : bool) (usrbuf : list byte) :
  Z.of_nat (length mem) = KERNELTALK_BUF ->
  run ops (fresh_server i mem) = Some srv ->
  let r := kerneltalk_write O_NONBLOCK signal usrbuf srv in
  Z.rem (blocking_offset srv + KERNELTALK_BUF - 1) KERNELTALK_BUF
  = (blocking_offset srv - 1) mod KERNELTALK_BUF /\
  DIST (end_ srv) (end_ (state r))
  <= DIST (end_ srv) ((blocking_offset srv - 1) mod KERNELTALK_BUF) /\
  forall cnt, cnt ∈ client_list srv ->
    offset (state r) cnt = offset srv cnt /\
    unread cnt (state r) = unread cnt srv + Z.of_nat (length (taken usrbuf (value r))) /\
    pending cnt (state r) = pending cnt srv ++ taken usrbuf (value r).
Proof.
  intros Hmem Hrun r.
  assert (Hwf : wf srv) by (eapply wf_run; [by apply wf_fresh_server|done]).
  pose proof (room_range srv Hwf) as Hr.
  pose proof (wf_end srv Hwf) as He.
  pose proof (taken_room O_NONBLOCK signal usrbuf srv Hwf) as Ht.
  assert (Hidx : Z.rem (blocking_offset srv + KERNELTALK_BUF - 1) KERNELTALK_BUF
                 = (blocking_offset srv - 1) mod KERNELTALK_BUF).
  { destruct (blocking_offset_unread srv Hwf) as [Hb _].
    revert Hb. generalize (blocking_offset srv). clear. intros b Hb. ring_arith. }
  split; [exact Hidx|]. rewrite <- Hidx.
  rewrite <- room_eq. fold r in Ht.
  destruct (kerneltalk_write_state O_NONBLOCK signal usrbuf srv) as [Hs|[Hs Hnil]];
    fold r in Hs; rewrite Hs.
  - split.
    + simpl. rewrite DIST_end_advance by (done || lia). done.
    + intros cnt Hin. split; [done|].
      destruct (pending_written cnt (taken usrbuf (value r)) srv) as [Hp Hu]; done.
  - fold r in Hnil. rewrite Hnil. split.
    + rewrite DIST_self. lia.
    + intros cnt Hin. by rewrite app_nil_r, Z.add_0_r.
Qed.

Lemma no_overwrite_invariant_witness :
  let mem := replicate 2048 x00 in
  let ops := [op_open 1; op_write true false [x01; x02; x03]; op_open 2;
              op_read 1 true false 1] in
  exists srv,
    run ops (fresh_server 0 mem) = Some srv /\
    let r := kerneltalk_write true false (replicate 3000 x09) srv in
    value r = Returned 2045 /\
    pending 1 (state r) = [x02; x03] ++ replicate 2045 x09.
Proof.
  intros mem ops.
  pose (srv := state (kerneltalk_read 1 true false 1
                 (joined 2 (state (kerneltalk_write true false [x01; x02; x03]
                    (joined 1 (fresh_server 0 mem))))))).
  assert (Hrun : run ops (fresh_server 0 mem) = Some srv) by (vm_compute; reflexivity).
  exists srv. split; [exact Hrun|].
  intros r.
  destruct (no_overwrite_invariant 0 mem ops srv true false (replicate 3000 x09)
              eq_refl Hrun) as (_ & _ & H).
  destruct (H 1%nat) as (_ & _ & Hp); [compute_done|].
  split; [vm_compute; reflexivity|].
  etransitivity; [exact Hp|]. vm_compute; reflexivity.
Defined.

(** ** What a client receives *)

Lemma foldr_max_le {A} (f : A -> Z) (l : list A) (b : Z) :
  0 <= b -> (forall x, x ∈ l -> f x <= b) -> foldr Z.max 0 (map f l) <= b.
Proof.
  intros Hb. induction l as [|x l IH]; intros Hl; simpl; [done|].
  assert (f x <= b) by (apply Hl; by left).
  assert (foldr Z.max 0 (map f l) <= b) by (apply IH; intros y Hy; apply Hl; by right).
  lia.
Qed.

Lemma max_unread_nonneg srv : 0 <= max_unread srv.
Proof.
  unfold max_unread. induction (client_list srv) as [|c l IH]; simpl; lia.
Qed.

(** A call takes from the room no more than it writes. *)
Lemma room_step o srv srv' :
  wf srv -> step o srv = Some srv' ->
  room srv - Z.of_nat (length (accepted o srv)) <= room srv'.
Proof.
  intros Hwf Hstep. pose proof (wf_step o srv srv' Hwf Hstep) as Hwf'.
  rewrite !room_max_unread by done.
  pose proof (max_unread_nonneg srv) as H0.
  assert (Hle : max_unread srv' <= max_unread srv + Z.of_nat (length (accepted o srv)));
    [|lia].
  apply foldr_max_le; [lia|]. intros c Hc.
  destruct o as [c0|c0|c0 nb sg len|nb sg buf|c0]; cbn [step accepted] in *.
  - destruct (decide _) as [|Hnew]; [done|]. rewrite create_client_eq in Hstep.
    injection Hstep as <-. cbn [state fst snd] in *. simpl in Hc. rewrite Z.add_0_r.
    destruct (decide (c = c0)) as [->|Hne]; [rewrite unread_joined; lia|].
    apply elem_of_cons in Hc as [?|Hc]; [done|].
    destruct (pending_same c srv (joined c0 srv)) as [_ ->];
      [simpl; by rewrite fn_lookup_insert_ne|done|done|].
    by apply max_unread_ge.
  - destruct (decide _); [|done].
    destruct (client_list (left_ c0 srv)) eqn:E; [done|]. injection Hstep as <-.
    rewrite Z.add_0_r. change (unread c (left_ c0 srv)) with (unread c srv).
    apply max_unread_ge. simpl in Hc. unfold list_del in Hc.
    by apply list_elem_of_filter in Hc as [_ ?].
  - destruct (decide _) as [Hin|]; [|done]. injection Hstep as <-.
    rewrite kerneltalk_read_state in * by done.
    rewrite consume_client_list in Hc. rewrite Z.add_0_r.
    pose proof (max_unread_ge srv c Hc) as Hge.
    pose proof (DIST_range _ _ (wf_offset srv Hwf c0 Hin) (wf_end srv Hwf)) as Hr.
    fold (unread c0 srv) in Hr.
    destruct (decide (c = c0)) as [->|Hne].
    + destruct (pending_consume c0 (len `min` Z.to_nat (unread c0 srv)) srv)
        as [_ ->]; [done|done|lia|lia].
    + destruct (pending_consume_other c c0 (len `min` Z.to_nat (unread c0 srv)) srv)
        as [_ ->]; [done|lia].
  - injection Hstep as <-.
    pose proof (taken_room nb sg buf srv Hwf) as Hroom.
    destruct (kerneltalk_write_state nb sg buf srv) as [Hs|[Hs Hnil]]; rewrite Hs in *.
    + simpl in Hc. destruct (pending_written c _ srv Hwf Hc Hroom) as [_ ->].
      pose proof (max_unread_ge srv c Hc). lia.
    + rewrite Hnil. pose proof (max_unread_ge srv c Hc). simpl. lia.
  - destruct (decide _); [|done]. injection Hstep as <-.
    rewrite kerneltalk_poll_state in *. rewrite Z.add_0_r. by apply max_unread_ge.
Qed.

(** A write that fits into the room is taken whole. *)
Lemma accepted_fits O_NONBLOCK signal usrbuf srv :
  Z.of_nat (length usrbuf) <= room srv ->
  accepted (op_write O_NONBLOCK signal usrbuf) srv = usrbuf.
Proof.
  intros Hfit. cbn [accepted]. destruct (decide (room srv = 0)) as [H0|H0].
  - rewrite kerneltalk_write_no_room by done.
    assert (usrbuf = []) as -> by (apply nil_length_inv; lia).
    by destruct O_NONBLOCK, signal.
  - rewrite kerneltalk_write_room by done. cbn [value fst taken].
    rewrite Nat2Z.id, take_length_take. apply take_ge. lia.
Qed.

(** A run whose writes fit into the room it starts with stores every
    byte handed to [write]. *)
Lemma written_by_fits ops : forall srv srv',
  wf srv -> run ops srv = Some srv' ->
  Z.of_nat (length (submitted ops)) <= room srv ->
  written_by ops srv = submitted ops.
Proof.
  induction ops as [|o ops IH]; intros srv srv' Hwf; simpl; [done|].
  destruct (step o srv) as [srv1|] eqn:E; [|done]. intros Hrun Hfit.
  pose proof (room_step o srv srv1 Hwf E) as Hroom.
  pose proof (wf_step o srv srv1 Hwf E) as Hwf1.
  destruct o as [c|c|c nb sg len|nb sg buf|c];
    try (cbn [accepted] in *; simpl in Hroom; rewrite (IH srv1 srv') by (done || lia); done).
  rewrite length_app in Hfit.
  rewrite accepted_fits in * by lia.
  rewrite (IH srv1 srv') by (done || lia). done.
Qed.

Lemma room_joined cnt srv :
  wf srv -> cnt ∉ client_list srv -> room (joined cnt srv) = room srv.
Proof.
  intros Hwf Hnew. pose proof (wf_joined cnt srv Hwf Hnew) as Hwf'.
  rewrite !room_max_unread by done. f_equal.
  unfold max_unread. simpl. fold (unread cnt (joined cnt srv)).
  rewrite unread_joined.
  assert (Hext : map (fun c => unread c (joined cnt srv)) (client_list srv)
               = map (fun c => unread c srv) (client_list srv)).
  { apply map_ext_in. intros c Hc. apply list_elem_of_In in Hc.
    apply pending_same; [|done|done]. simpl.
    apply fn_lookup_insert_ne. by intros ->. }
  rewrite Hext. pose proof (max_unread_nonneg srv) as H0. unfold max_unread in H0. lia.
Qed.

(** C2, as the code has it.  A client joins; then any calls happen in
    which it neither reads nor closes (the writes of the producer among
    them); then it reads until nothing is unread.  The bytes its reads
    returned are exactly the bytes the writes stored after it joined, in
    order.  When the bytes handed to [write] are no more than
    [room_to_write] at the time of the join, they are all stored, and the
    client receives exactly their concatenation.  That room is
    [KERNELTALK_BUF - 1] less the largest unread count of the other
    clients. *)
Theorem per_consumer_completeness (srv0 : kerneltalk_server) (cnt : nat)
    (ops rds : list op) (srv2 srv3 : kerneltalk_server) :
  wf srv0 -> cnt ∉ client_list srv0 ->
  let srv1 := state (create_client (Some cnt) srv0) in
  quiet cnt ops -> run ops srv1 = Some srv2 ->
  reads_of cnt rds -> run rds srv2 = Some srv3 -> unread cnt srv3 = 0 ->
  delivered cnt rds srv2 = written_by ops srv1 /\
  (Z.of_nat (length (submitted ops)) <= room srv0 ->
   delivered cnt rds srv2 = submitted ops) /\
  room srv0 = KERNELTALK_BUF - 1 - max_unread srv0.
Proof.
  intros Hwf Hnew srv1 Hq Hrun Hr Hrun' Hdrained.
  assert (Hwf1 : wf srv1) by exact (wf_joined cnt srv0 Hwf Hnew).
  assert (Hin1 : cnt ∈ client_list srv1)
    by (change (cnt ∈ cnt :: client_list srv0); by left).
  destruct (pending_run cnt ops srv1 srv2 Hwf1 Hin1 Hq Hrun) as [Hin2 Hp2].
  assert (Hwf2 : wf srv2) by (by apply (wf_run ops srv1)).
  assert (Hp1 : pending cnt srv1 = []) by apply pending_joined.
  rewrite Hp1 in Hp2. simpl in Hp2.
  pose proof (delivered_reads cnt rds srv2 srv3 Hwf2 Hin2 Hr Hrun') as Hd.
  assert (Hp3 : pending cnt srv3 = []).
  { unfold pending. by rewrite Hdrained. }
  rewrite Hp3, app_nil_r, Hp2 in Hd.
  assert (Hall : delivered cnt rds srv2 = written_by ops srv1) by done.
  split; [done|]. split; [|by apply room_max_unread].
  intros Hfit. rewrite Hall. apply (written_by_fits ops srv1 srv2); [done|done|].
  change srv1 with (joined cnt srv0). by rewrite room_joined.
Qed.

Lemma per_consumer_completeness_witness :
  let srv0 := fresh_server 0 (replicate 2048 x00) in
  let ops := [op_write true false [x01; x02]; op_open 2;
              op_write false false [x03]; op_read 2 true false 9] in
  let rds := [op_read 1 true false 2; op_read 1 true false 0;
              op_read 1 true false 7] in
  exists srv2 srv3,
    run ops (joined 1 srv0) = Some srv2 /\ run rds srv2 = Some srv3 /\
    unread 1 srv3 = 0 /\
    delivered 1 rds srv2 = [x01; x02; x03].
Proof.
  intros srv0 ops rds.
  pose (srv2 := state (kerneltalk_read 2 true false 9
                  (state (kerneltalk_write false false [x03]
                     (joined 2 (state (kerneltalk_write true false [x01; x02]
                        (joined 1 srv0)))))))).
  pose (srv3 := state (kerneltalk_read 1 true false 7
                  (state (kerneltalk_read 1 true false 0
                     (state (kerneltalk_read 1 true false 2 srv2)))))).
  assert (Hwf : wf srv0) by (apply wf_fresh_server; reflexivity).
  assert (Hnew : 1%nat ∉ client_list srv0) by (apply not_elem_of_nil).
  assert (Hrun : run ops (joined 1 srv0) = Some srv2) by (vm_compute; reflexivity).
  assert (Hrun' : run rds srv2 = Some srv3) by (vm_compute; reflexivity).
  assert (Hd : unread 1 srv3 = 0) by (vm_compute; reflexivity).
  assert (Hfit : Z.of_nat (length (submitted ops)) <= room srv0)
    by (vm_compute; intros H; discriminate H).
  exists srv2, srv3.
  refine (conj Hrun (conj Hrun' (conj Hd _))).
  destruct (per_consumer_completeness srv0 1 ops rds srv2 srv3 Hwf Hnew
              eq_refl Hrun eq_refl Hrun' Hd) as (_ & Hfull & _).
  exact (Hfull Hfit).
Defined.

(** C2 as written fails: a total of at most [KERNELTALK_BUF - 1] bytes is
    not enough when another client is behind.  Client 1 has 2045 unread
    bytes when client 2 joins, so there is room for 2 bytes; the producer
    writes 5 bytes, of which [write] takes 2; client 2 reads until nothing
    is unread and has received 2 bytes, not the 5 written. *)
Lemma per_consumer_completeness_counterexample :
  let srv0 := state (kerneltalk_write true false (replicate 2045 x01)
                (joined 1 (fresh_server 0 (replicate 2048 x00)))) in
  let B1 := [x0a; x0b; x0c; x0d; x0e] in
  let srv1 := state (create_client (Some 2%nat) srv0) in
  let w := kerneltalk_write true false B1 srv1 in
  let r := kerneltalk_read 2 true false 10 (state w) in
  Z.of_nat (length B1) <= KERNELTALK_BUF - 1 /\
  room srv1 = 2 /\
  value w = Returned 2 /\
  value r = (Returned 2, [x0a; x0b]) /\
  unread 2 (state r) = 0 /\
  snd (value r) <> B1.
Proof.
  vm_compute. repeat split; intros H; discriminate H.
Qed.

(** C8. A new client starts at the current [end]: right after
    [create_client] nothing is unread for it, whatever was written before.
    After any later calls in which it neither reads nor closes, its next
    read returns the first bytes written since it joined (as many as the
    read asks for), so none of the bytes written before. *)
Theorem late_joiner_isolation (srv0 : kerneltalk_server) (cnt : nat) :
  wf srv0 -> cnt ∉ client_list srv0 ->
  let srv1 := state (create_client (Some cnt) srv0) in
  offset srv1 cnt = end_ srv0 /\
  unread cnt srv1 = 0 /\
  forall ops srv2 O_NONBLOCK signal length,
    quiet cnt ops -> run ops srv1 = Some srv2 ->
    snd (value (kerneltalk_read cnt O_NONBLOCK signal length srv2))
    = take length (written_by ops srv1).
Proof.
  intros Hwf Hnew srv1.
  assert (Hwf1 : wf srv1) by exact (wf_joined cnt srv0 Hwf Hnew).
  assert (Hin1 : cnt ∈ client_list srv1)
    by (change (cnt ∈ cnt :: client_list srv0); by left).
  split; [simpl; by rewrite fn_lookup_insert|].
  split; [apply unread_joined|].
  intros ops srv2 nb sg len Hq Hrun.
  destruct (pending_run cnt ops srv1 srv2 Hwf1 Hin1 Hq Hrun) as [Hin2 Hp2].
  assert (Hwf2 : wf srv2) by (by apply (wf_run ops srv1)).
  destruct (kerneltalk_read_pending cnt nb sg len srv2 Hwf2 Hin2) as [-> _].
  rewrite Hp2. unfold srv1. rewrite create_client_eq. cbn [state fst snd].
  by rewrite pending_joined.
Qed.

Lemma late_joiner_isolation_witness :
  let old := state (kerneltalk_write true false [x01; x02; x03]
               (joined 1 (fresh_server 0 (replicate 2048 x00)))) in
  let srv1 := state (create_client (Some 2%nat) old) in
  wf old /\ (2%nat ∉ client_list old) /\ unread 2 srv1 = 0 /\
  value (kerneltalk_read 2 true false 8 srv1) = (Returned (- EAGAIN), []) /\
  snd (value (kerneltalk_read 2 true false 8
         (state (kerneltalk_write true false [x04; x05] srv1)))) = [x04; x05].
Proof.
  intros old srv1.
  assert (Hwf : wf old).
  { unfold old. rewrite kerneltalk_write_room by (vm_compute; intros H; discriminate H).
    apply wf_written, wf_joined; [apply wf_fresh_server; reflexivity|apply not_elem_of_nil]. }
  assert (Hnew : 2%nat ∉ client_list old) by compute_done.
  destruct (late_joiner_isolation old 2 Hwf Hnew) as (_ & Hu & Hread).
  refine (conj Hwf (conj Hnew (conj Hu (conj _ _)))).
  - vm_compute; reflexivity.
  - etransitivity;
      [exact (Hread [op_write true false [x04; x05]]
                (state (kerneltalk_write true false [x04; x05] srv1))
                true false 8%nat eq_refl eq_refl)|].
    vm_compute; reflexivity.
Defined.

(** ** Backpressure *)

Lemma max_unread_is cnt srv :
  cnt ∈ client_list srv -> 0 <= unread cnt srv ->
  (forall c, c ∈ client_list srv -> unread c srv <= unread cnt srv) ->
  max_unread srv = unread cnt srv.
Proof.
  intros Hin H0 Hmax. pose proof (max_unread_ge srv cnt Hin) as Hge.
  assert (Hle : max_unread srv <= unread cnt srv); [|lia].
  unfold max_unread. clear Hin Hge.
  induction (client_list srv) as [|c l IH]; simpl; [done|].
  assert (unread c srv <= unread cnt srv) by (apply Hmax; by left).
  assert (foldr Z.max 0 (map (fun c0 => unread c0 srv) l) <= unread cnt srv).
  { apply IH. intros c' Hc'. apply Hmax. by right. }
  lia.
Qed.

(** When the reader was the slowest client and stays so, the room grows
    by what it read. *)
Lemma room_consume cnt k srv :
  wf srv -> cnt ∈ client_list srv -> Z.of_nat k <= unread cnt srv ->
  (forall c, c ∈ client_list srv -> c <> cnt ->
     unread c srv <= unread cnt srv - Z.of_nat k) ->
  room (consume cnt k srv) = room srv + Z.of_nat k.
Proof.
  intros Hwf Hin Hk Hothers.
  pose proof (wf_consume cnt k srv Hwf Hin) as Hwf'.
  destruct (pending_consume cnt k srv Hwf Hin Hk) as [_ Hu].
  rewrite !room_max_unread by done.
  rewrite (max_unread_is cnt srv); [|done|lia|].
  - rewrite (max_unread_is cnt (consume cnt k srv)); [lia|by rewrite consume_client_list|lia|].
    rewrite consume_client_list. intros c Hc.
    destruct (decide (c = cnt)) as [->|Hne]; [lia|].
    destruct (pending_consume_other c cnt k srv) as [_ ->]; [done|].
    rewrite Hu. by apply Hothers.
  - intros c Hc. destruct (decide (c = cnt)) as [->|Hne]; [lia|].
    specialize (Hothers c Hc Hne). lia.
Qed.

(** C5, as the code has it.  A client joins and then never reads.
    Whatever calls follow, the bytes written since it joined never exceed
    [KERNELTALK_BUF - 1]; once they reach [KERNELTALK_BUF - 1], a further
    [write] stores nothing and leaves the server as it is: it returns
    [-EAGAIN] in non-blocking mode and otherwise sleeps on [wwq] (or returns
    [-ERESTARTSYS] when a signal is pending).  When the stalled client then
    reads [k] bytes, [room_to_write] grows by exactly [k], provided no
    other client has more unread bytes than the stalled client has left. *)
Theorem backpressure (srv0 : kerneltalk_server) (cnt : nat) (ops : list op)
    (srv2 : kerneltalk_server) :
  wf srv0 -> cnt ∉ client_list srv0 ->
  let srv1 := state (create_client (Some cnt) srv0) in
  quiet cnt ops -> run ops srv1 = Some srv2 ->
  Z.of_nat (length (written_by ops srv1)) <= KERNELTALK_BUF - 1 /\
  (Z.of_nat (length (written_by ops srv1)) = KERNELTALK_BUF - 1 ->
   forall O_NONBLOCK signal usrbuf,
     let r := kerneltalk_write O_NONBLOCK signal usrbuf srv2 in
     value r = (if O_NONBLOCK then Returned (- EAGAIN)
                else if signal then Returned (- ERESTARTSYS) else Sleeping wwq) /\
     taken usrbuf (value r) = [] /\ state r = srv2) /\
  (forall O_NONBLOCK signal length,
     let r := kerneltalk_read cnt O_NONBLOCK signal length srv2 in
     let k := Z.of_nat (List.length (snd (value r))) in
     (forall c, c ∈ client_list srv2 -> c <> cnt ->
        unread c srv2 <= unread cnt srv2 - k) ->
     room (state r) = room srv2 + k).
Proof.
  intros Hwf Hnew srv1 Hq Hrun.
  assert (Hwf1 : wf srv1) by exact (wf_joined cnt srv0 Hwf Hnew).
  assert (Hin1 : cnt ∈ client_list srv1)
    by (change (cnt ∈ cnt :: client_list srv0); by left).
  destruct (pending_run cnt ops srv1 srv2 Hwf1 Hin1 Hq Hrun) as [Hin2 Hp2].
  assert (Hwf2 : wf srv2) by (by apply (wf_run ops srv1)).
  assert (Hp1 : pending cnt srv1 = []) by apply pending_joined.
  rewrite Hp1 in Hp2. simpl in Hp2.
  pose proof (unread_pending cnt srv2 Hwf2 Hin2) as Hlen. rewrite Hp2 in Hlen.
  pose proof (room_unread srv2 cnt Hwf2 Hin2) as Hroom.
  pose proof (room_range srv2 Hwf2) as Hr.
  split; [lia|]. split.
  - intros Hfull nb sg usrbuf r. subst r.
    rewrite kerneltalk_write_no_room by lia.
    by destruct nb, sg.
  - intros nb sg len r k Hothers. subst r k.
    destruct (kerneltalk_read_pending cnt nb sg len srv2 Hwf2 Hin2) as [Hv _].
    rewrite kerneltalk_read_state by done.
    rewrite Hv in *. rewrite length_take in *.
    pose proof (unread_pending cnt srv2 Hwf2 Hin2) as Hlen2.
    replace (len `min` List.length (pending cnt srv2))%nat
      with (len `min` Z.to_nat (unread cnt srv2))%nat in * by lia.
    apply room_consume; [done|done|lia|done].
Qed.

Lemma backpressure_witness :
  let srv0 := fresh_server 0 (replicate 2048 x00) in
  let ops := [op_write true false (replicate 3000 x01); op_open 2] in
  exists srv2,
    run ops (joined 1 srv0) = Some srv2 /\
    Z.of_nat (length (written_by ops (joined 1 srv0))) = KERNELTALK_BUF - 1 /\
    value (kerneltalk_write true false [x02] srv2) = Returned (- EAGAIN) /\
    value (kerneltalk_write false false [x02] srv2) = Sleeping wwq /\
    room srv2 = 0 /\
    room (state (kerneltalk_read 1 true false 7 srv2)) = 7.
Proof.
  intros srv0 ops.
  pose (srv2 := joined 2 (state (kerneltalk_write true false (replicate 3000 x01)
                                   (joined 1 srv0)))).
  assert (Hwf : wf srv0) by (apply wf_fresh_server; reflexivity).
  assert (Hnew : 1%nat ∉ client_list srv0) by (apply not_elem_of_nil).
  assert (Hrun : run ops (joined 1 srv0) = Some srv2) by (vm_compute; reflexivity).
  assert (Hlen : Z.of_nat (length (written_by ops (joined 1 srv0))) = KERNELTALK_BUF - 1)
    by (vm_compute; reflexivity).
  assert (Hroom : room srv2 = 0) by (vm_compute; reflexivity).
  assert (Hothers : Forall (fun c => c <> 1%nat ->
            unread c srv2 <= unread 1 srv2
              - Z.of_nat (length (snd (value (kerneltalk_read 1 true false 7 srv2)))))
            (client_list srv2)) by compute_done.
  destruct (backpressure srv0 1 ops srv2 Hwf Hnew eq_refl Hrun) as (_ & Hblock & Hfree).
  destruct (Hblock Hlen true false [x02]) as (Hnb & _ & _).
  destruct (Hblock Hlen false false [x02]) as (Hb & _ & _).
  exists srv2.
  refine (conj Hrun (conj Hlen (conj Hnb (conj Hb (conj Hroom _))))).
  etransitivity;
    [exact (Hfree true false 7%nat (proj1 (list.Forall_forall _ _) Hothers))|].
  vm_compute; reflexivity.
Defined.

(** C5 as written fails: with two clients, the stalled one reading [k]
    bytes does not free [k] bytes of room while the other client is still
    further behind.  Client 1 never reads, client 2 has read 2 of the 2047
    bytes written; there is no room; client 1 reads 5 bytes and the room is
    2, not 5. *)
Lemma backpressure_counterexample :
  let srv0 := fresh_server 0 (replicate 2048 x00) in
  let ops := [op_open 2; op_write true false (replicate 2047 x01);
              op_read 2 true false 2] in
  exists srv2,
    run ops (joined 1 srv0) = Some srv2 /\
    client_list srv2 = [2; 1]%nat /\
    offset srv2 1%nat = 0 /\
    room srv2 = 0 /\
    let r := kerneltalk_read 1 true false 5 srv2 in
    value r = (Returned 5, replicate 5 x01) /\
    room (state r) = 2 /\
    room (state r) <> room srv2 + 5.
Proof.
  intros srv0 ops.
  exists (state (kerneltalk_read 2 true false 2
            (state (kerneltalk_write true false (replicate 2047 x01)
               (joined 2 (joined 1 srv0)))))).
  vm_compute. repeat split. intros H; discriminate H.
Qed.

(** ** Lock order *)

Lemma bind_events {S A B} (m : M S A) (f : A -> M S B) (s : S) :
  events (bind m f s) = events (m s) ++ events (f (value (m s)) (state (m s))).
Proof.
  unfold bind, events, value, state. destruct (m s) as [[a s1] t1]. simpl.
  by destruct (f a s1) as [[b s2] t2].
Qed.

Lemma read_loop_events cnt length : forall bytes_read srv,
  events (read_loop cnt length bytes_read srv) = [].
Proof.
  induction length as [|length IH]; intros br srv; simpl; [done|].
  rewrite bind_events. cbn [get events value state fst snd app].
  destruct (unread cnt srv >? 0); [|done].
  rewrite !bind_events. cbn [get modify events value state fst snd app].
  by rewrite IH.
Qed.

Lemma kerneltalk_read_events cnt O_NONBLOCK signal length srv :
  events (kerneltalk_read cnt O_NONBLOCK signal length srv) = read_wait_events \/
  events (kerneltalk_read cnt O_NONBLOCK signal length srv) = read_events.
Proof.
  destruct (decide (unread cnt srv = 0)) as [H0|H0].
  - left. by rewrite kerneltalk_read_no_data.
  - right. unfold kerneltalk_read. rewrite !bind_events.
    cbn [down_read emit get events value state fst snd app].
    destruct (Z.eqb_spec (unread cnt srv) 0) as [|_]; [done|].
    rewrite !bind_events, read_loop_events. reflexivity.
Qed.

Lemma kerneltalk_write_events O_NONBLOCK signal usrbuf srv :
  events (kerneltalk_write O_NONBLOCK signal usrbuf srv) = write_wait_events O_NONBLOCK \/
  events (kerneltalk_write O_NONBLOCK signal usrbuf srv) = write_events.
Proof.
  destruct (decide (room srv = 0)) as [H0|H0].
  - left. by rewrite kerneltalk_write_no_room.
  - right. by rewrite kerneltalk_write_room.
Qed.

Lemma kerneltalk_poll_events cnt srv : events (kerneltalk_poll cnt srv) = poll_events.
Proof. reflexivity. Qed.

Lemma on_server_events {A} i (m : M kerneltalk_server A) d server_list :
  events (on_server i m d server_list) = [] \/
  exists srv, events (on_server i m d server_list) = events (m srv).
Proof.
  unfold on_server. destruct (find_server i server_list) as [srv|]; [|by left].
  right. exists srv. by destruct (m srv) as [[a srv'] t].
Qed.

Lemma check_free_server_events i server_list :
  events (check_free_server i server_list) = [ev_mutex_lock client_list_lock] \/
  events (check_free_server i server_list)
  = [ev_mutex_lock client_list_lock; ev_mutex_unlock client_list_lock].
Proof.
  unfold check_free_server. rewrite !bind_events.
  cbn [mutex_lock_interruptible emit get events value state fst snd app].
  destruct (option_map client_list (find_server i server_list)) as [[|c l]|];
    [by left|by right|by right].
Qed.

Ltac in_traces :=
  unfold open_traces, flush_traces;
  repeat first [ apply elem_of_app; left; in_traces_here | apply elem_of_app; right ];
  in_traces_here
with in_traces_here :=
  solve [ repeat first [ apply list_elem_of_here | apply list_elem_of_further ] ].

Lemma kerneltalk_open_events i kmalloc_srv kmalloc_cnt server_list :
  events (kerneltalk_open i kmalloc_srv kmalloc_cnt server_list) ∈ open_traces.
Proof.
  unfold kerneltalk_open. rewrite !bind_events.
  cbn [mutex_lock_interruptible emit events value state fst snd].
  assert (Hget : events (get_server i kmalloc_srv server_list) = []).
  { unfold get_server. rewrite bind_events. cbn [get events value state fst snd app].
    destruct (find_server i server_list); [done|]. by destruct kmalloc_srv. }
  rewrite Hget. cbn [app].
  destruct (value (get_server i kmalloc_srv server_list)) as [p|].
  - rewrite bind_events.
    set (sl1 := state (get_server i kmalloc_srv server_list)).
    assert (Hcnt :
      (value (on_server p (create_client kmalloc_cnt) None sl1) = None /\
       events (on_server p (create_client kmalloc_cnt) None sl1) = []) \/
      (exists c, value (on_server p (create_client kmalloc_cnt) None sl1) = Some c /\
       events (on_server p (create_client kmalloc_cnt) None sl1) = client_events)).
    { unfold on_server. destruct (find_server p sl1) as [srv|]; [|by left].
      destruct kmalloc_cnt as [c|]; [right; by exists c|by left]. }
    destruct Hcnt as [[-> ->]|(c & -> & ->)].
    + rewrite !bind_events.
      cbn [mutex_unlock emit ret events value state fst snd app].
      destruct (check_free_server_events p
                  (state (on_server p (create_client kmalloc_cnt) None sl1))) as [-> | ->];
        in_traces.
    + rewrite !bind_events.
      cbn [mutex_unlock emit ret events value state fst snd app client_events].
      in_traces.
  - rewrite !bind_events. cbn [mutex_unlock emit ret events value state fst snd app].
    in_traces.
Qed.

Lemma kerneltalk_flush_events i cnt f_count server_list :
  events (kerneltalk_flush i cnt f_count server_list) ∈ flush_traces.
Proof.
  unfold kerneltalk_flush. destruct (negb (f_count =? 1)); [in_traces|].
  rewrite !bind_events.
  cbn [mutex_lock_interruptible mutex_unlock emit events value state fst snd].
  assert (Hdel : forall sl, events (on_server i (modify (left_ cnt)) tt sl) = []).
  { intros sl. unfold on_server. by destruct (find_server i sl). }
  rewrite Hdel. cbn [app].
  match goal with
  | |- context [check_free_server i ?sl] =>
      destruct (check_free_server_events i sl) as [-> | ->]
  end; cbn [ret events snd app]; in_traces.
Qed.

Lemma call_events_traces f server_list : call_events f server_list ∈ traces.
Proof.
  unfold traces. destruct f as [i ks kc|i c n|i c nb sg len|i nb sg buf|i c];
    cbn [call_events].
  - apply elem_of_app. left. apply kerneltalk_open_events.
  - apply elem_of_app. right. apply elem_of_app. left. apply kerneltalk_flush_events.
  - destruct (on_server_events i (kerneltalk_read c nb sg len) (Returned 0, []) server_list)
      as [-> | [srv ->]]; [in_traces|].
    destruct (kerneltalk_read_events c nb sg len srv) as [-> | ->]; in_traces.
  - destruct (on_server_events i (kerneltalk_write nb sg buf) (Returned 0) server_list)
      as [-> | [srv ->]]; [in_traces|].
    destruct (kerneltalk_write_events nb sg buf srv) as [-> | ->];
      [destruct nb|]; in_traces.
  - destruct (on_server_events i (kerneltalk_poll c) 0 server_list)
      as [-> | [srv ->]]; [in_traces|].
    rewrite kerneltalk_poll_events. in_traces.
Qed.

Lemma traces_nesting_ok : Forall (fun t => Forall nesting_ok (nestings [] t)) traces.
Proof. compute_done. Qed.

(** C9, as the code has it.  In every call of a file operation, whenever
    a lock is taken while another is held, the lock taken is the client
    list (registry) lock and the lock held is the buffer lock or the server
    list (directory) lock: the order is buffer lock, then registry lock, and
    directory lock, then registry lock.  [write] and [poll] are the paths
    that hold the buffer lock and the registry lock together, and both take
    the buffer lock first. *)
Theorem lock_order (f : file_operation) (server_list : list kerneltalk_server) :
  Forall nesting_ok (nestings [] (call_events f server_list)) /\
  (forall O_NONBLOCK signal usrbuf srv,
     (buffer_lock, client_list_lock)
     ∈ nestings [] (events (kerneltalk_write O_NONBLOCK signal usrbuf srv))) /\
  (forall cnt srv,
     (buffer_lock, client_list_lock) ∈ nestings [] (events (kerneltalk_poll cnt srv))).
Proof.
  split; [|split].
  - pose proof traces_nesting_ok as H.
    rewrite list.Forall_forall in H. apply H, call_events_traces.
  - intros nb sg buf srv.
    destruct (kerneltalk_write_events nb sg buf srv) as [-> | ->];
      [destruct nb|]; compute_done.
  - intros cnt srv. rewrite kerneltalk_poll_events. compute_done.
Qed.

(** C9 as written fails: [write] takes the buffer lock first and the
    client list (registry) lock inside it, never the other way round. *)
Lemma lock_order_counterexample :
  let srv := joined 1 (fresh_server 0 (replicate 2048 x00)) in
  let t := events (kerneltalk_write true false [x01] srv) in
  t = [ev_down_write; ev_mutex_lock client_list_lock;
       ev_mutex_unlock client_list_lock; ev_up_write; ev_wake_up rwq] /\
  nestings [] t = [(buffer_lock, client_list_lock)] /\
  (client_list_lock, buffer_lock) ∉ nestings [] t.
Proof.
  intros srv t.
  assert (Ht : t = [ev_down_write; ev_mutex_lock client_list_lock;
                    ev_mutex_unlock client_list_lock; ev_up_write; ev_wake_up rwq])
    by (vm_compute; reflexivity).
  rewrite Ht. split; [done|]. split; [reflexivity|]. compute_done.
Qed.

(** ** The file operations on the server list and the calls of a run *)

Lemma find_server_inode i server_list srv :
  find_server i server_list = Some srv -> inode srv = i.
Proof.
  induction server_list as [|s rest IH]; simpl; [done|].
  destruct (Nat.eqb_spec (inode s) i) as [Heq|Hne]; [|done].
  by intros [= <-].
Qed.

Lemma find_store_server i server_list srv srv' :
  find_server i server_list = Some srv -> inode srv' = i ->
  find_server i (store_server i srv' server_list) = Some srv'.
Proof.
  intros Hfind Hi. induction server_list as [|s rest IH]; simpl in *; [done|].
  destruct (Nat.eqb_spec (inode s) i) as [Heq|Hne]; simpl.
  - by rewrite Hi, Nat.eqb_refl.
  - destruct (Nat.eqb_spec (inode s) i); [done|]. by apply IH.
Qed.

(** [open] on an inode that has a server is [op_open] on that server. *)
Lemma kerneltalk_open_existing i kmalloc_srv cnt server_list srv :
  find_server i server_list = Some srv ->
  kerneltalk_open i kmalloc_srv (Some cnt) server_list =
  (SUCCESS, store_server i (joined cnt srv) server_list,
   [ev_mutex_lock server_list_lock; ev_mutex_lock client_list_lock;
    ev_mutex_unlock client_list_lock; ev_mutex_unlock server_list_lock]).
Proof.
  intros Hfind. unfold kerneltalk_open, get_server, on_server, bind, get,
    mutex_lock_interruptible, mutex_unlock, emit, ret.
  cbv beta iota. rewrite Hfind. cbv beta iota. by rewrite Hfind.
Qed.

(** [open] on an inode without server builds the server first. *)
Lemma kerneltalk_open_new i mem cnt server_list :
  find_server i server_list = None ->
  kerneltalk_open i (Some mem) (Some cnt) server_list =
  (SUCCESS, joined cnt (fresh_server i mem) :: server_list,
   [ev_mutex_lock server_list_lock; ev_mutex_lock client_list_lock;
    ev_mutex_unlock client_list_lock; ev_mutex_unlock server_list_lock]).
Proof.
  intros Hfind. unfold kerneltalk_open, get_server, on_server, create_server,
    bind, get, modify, mutex_lock_interruptible, mutex_unlock, emit, ret.
  cbv beta iota. rewrite Hfind. cbv beta iota. cbn [find_server fresh_server inode store_server].
  by rewrite Nat.eqb_refl.
Qed.

(** The last close of a file unlinks its client; the server goes with
    its last client, and only then. *)
Lemma kerneltalk_flush_last_close i cnt server_list srv :
  find_server i server_list = Some srv ->
  value (kerneltalk_flush i cnt 1 server_list) = SUCCESS /\
  state (kerneltalk_flush i cnt 1 server_list) =
  match client_list (left_ cnt srv) with
  | [] => unlink_server i (store_server i (left_ cnt srv) server_list)
  | _ :: _ => store_server i (left_ cnt srv) server_list
  end.
Proof.
  intros Hfind. pose proof (find_server_inode i server_list srv Hfind) as Hi.
  assert (Hfind' : find_server i (store_server i (left_ cnt srv) server_list)
                   = Some (left_ cnt srv)) by (by apply (find_store_server i _ srv)).
  unfold kerneltalk_flush, check_free_server, on_server, bind, get, modify,
    mutex_lock_interruptible, mutex_unlock, emit, ret.
  cbn [Z.eqb Pos.eqb negb]. cbv beta iota. rewrite Hfind. cbv beta iota. rewrite Hfind'.
  cbn [option_map]. by destruct (client_list (left_ cnt srv)).
Qed.

(** A duplicated file descriptor closes without effect. *)
Lemma kerneltalk_flush_shared i cnt f_count server_list :
  f_count <> 1 ->
  kerneltalk_flush i cnt f_count server_list = (SUCCESS, server_list, []).
Proof.
  intros Hc. unfold kerneltalk_flush.
  by destruct (Z.eqb_spec f_count 1).
Qed.

(** Without interference between the loop test and the wait, a call
    never finds the wait condition true: it returns or sleeps. *)
Lemma never_reenter cnt O_NONBLOCK signal length usrbuf srv :
  fst (value (kerneltalk_read cnt O_NONBLOCK signal length srv)) <> Reenter /\
  value (kerneltalk_write O_NONBLOCK signal usrbuf srv) <> Reenter.
Proof.
  split.
  - destruct (decide (unread cnt srv = 0)) as [H0|H0].
    + rewrite kerneltalk_read_no_data by done. by destruct O_NONBLOCK, signal.
    + unfold kerneltalk_read, bind, down_read, emit, get.
      destruct (Z.eqb_spec (unread cnt srv) 0) as [|_]; [done|].
      by destruct (read_loop cnt length 0 srv) as [[[n out] s] t].
  - destruct (decide (room srv = 0)) as [H0|H0].
    + rewrite kerneltalk_write_no_room by done. by destruct O_NONBLOCK, signal.
    + by rewrite kerneltalk_write_room.
Qed.

(** ** Delivery under any interleaving *)

Lemma stream_run cnt ops : forall srv srv',
  wf srv -> cnt ∈ client_list srv -> stays cnt ops ->
  run ops srv = Some srv' ->
  cnt ∈ client_list srv' /\
  pending cnt srv ++ written_by ops srv = delivered cnt ops srv ++ pending cnt srv'.
Proof.
  unfold stays.
  induction ops as [|o ops IH]; intros srv srv' Hwf Hin Hs; simpl in *.
  - intros [= <-]. by rewrite app_nil_r.
  - apply andb_prop in Hs as [Hs1 Hs2].
    destruct (step o srv) as [srv1|] eqn:E; [|done]. intros Hrun.
    pose proof (wf_step o srv srv1 Hwf E) as Hwf1.
    destruct (by_client cnt o) eqn:Hby.
    + destruct o as [c|c|c nb sg len|nb sg buf|c]; try done.
      { simpl in Hby. rewrite Hby in Hs1. done. }
      simpl in Hby. apply Nat.eqb_eq in Hby as ->.
      pose proof E as E'. cbn [step] in E'.
      destruct (decide (cnt ∈ client_list srv)); [|done]. injection E' as E'.
      destruct (kerneltalk_read_pending cnt nb sg len srv Hwf Hin) as [Hv Hp].
      rewrite E' in Hp.
      assert (Hin1 : cnt ∈ client_list srv1).
      { rewrite <- E', kerneltalk_read_state by done. by rewrite consume_client_list. }
      destruct (IH srv1 srv' Hwf1 Hin1 Hs2 Hrun) as [Hin' Heq].
      split; [done|]. cbn [accepted app].
      destruct (decide (cnt = cnt)); [|done].
      rewrite Hv, <- app_assoc, <- Heq, Hp, app_assoc, take_drop. done.
    + destruct (pending_step cnt o srv srv1 Hwf Hin Hby E) as [Hin1 Hp1].
      destruct (IH srv1 srv' Hwf1 Hin1 Hs2 Hrun) as [Hin' Heq].
      split; [done|].
      assert (Hd : match o with
                   | op_read c nb sg len =>
                       if decide (c = cnt)
                       then snd (value (kerneltalk_read c nb sg len srv)) else []
                   | _ => []
                   end = []).
      { destruct o as [c|c|c nb sg len|nb sg buf|c]; try done.
        simpl in Hby. apply Nat.eqb_neq in Hby. by destruct (decide (c = cnt)). }
      rewrite Hd. cbn [app]. rewrite <- Heq, Hp1, app_assoc. done.
Qed.

(** X1. A client joins and stays; whatever calls follow, in any order
    (its own reads among the writes, other clients reading, joining and
    leaving), the bytes its reads have returned so far, followed by the
    bytes still unread for it, are exactly the bytes written since it
    joined: every byte is delivered once, in order, none is lost. *)
Theorem exactly_once_in_order (srv0 : kerneltalk_server) (cnt : nat)
    (ops : list op) (srv' : kerneltalk_server) :
  wf srv0 -> cnt ∉ client_list srv0 ->
  let srv1 := state (create_client (Some cnt) srv0) in
  stays cnt ops -> run ops srv1 = Some srv' ->
  delivered cnt ops srv1 ++ pending cnt srv' = written_by ops srv1 /\
  delivered cnt ops srv1 `prefix_of` written_by ops srv1.
Proof.
  intros Hwf Hnew srv1 Hs Hrun.
  assert (Hwf1 : wf srv1) by exact (wf_joined cnt srv0 Hwf Hnew).
  assert (Hin1 : cnt ∈ client_list srv1)
    by (change (cnt ∈ cnt :: client_list srv0); by left).
  destruct (stream_run cnt ops srv1 srv' Hwf1 Hin1 Hs Hrun) as [_ Heq].
  assert (Hp1 : pending cnt srv1 = []) by apply pending_joined.
  rewrite Hp1 in Heq. simpl in Heq.
  split; [done|]. exists (pending cnt srv'). done.
Qed.

Lemma exactly_once_in_order_witness :
  let srv0 := fresh_server 0 (replicate 2048 x00) in
  let ops := [op_write true false [x01; x02; x03]; op_read 1 true false 2;
              op_open 2; op_write false false [x04]; op_read 2 true false 5;
              op_read 1 true false 1; op_flush 2; op_write true false [x05; x06]] in
  exists srv',
    run ops (joined 1 srv0) = Some srv' /\
    delivered 1 ops (joined 1 srv0) = [x01; x02; x03] /\
    pending 1 srv' = [x04; x05; x06] /\
    written_by ops (joined 1 srv0) = [x01; x02; x03; x04; x05; x06].
Proof.
  intros srv0 ops.
  assert (Hwf : wf srv0) by (apply wf_fresh_server; reflexivity).
  assert (Hnew : 1%nat ∉ client_list srv0) by (apply not_elem_of_nil).
  destruct (run ops (joined 1 srv0)) as [srv'|] eqn:Hrun;
    [|vm_compute in Hrun; discriminate Hrun].
  exists srv'.
  destruct (exactly_once_in_order srv0 1 ops srv' Hwf Hnew eq_refl Hrun) as [Heq _].
  assert (Hd : delivered 1 ops (joined 1 srv0) = [x01; x02; x03])
    by (vm_compute; reflexivity).
  assert (Hw : written_by ops (joined 1 srv0) = [x01; x02; x03; x04; x05; x06])
    by (vm_compute; reflexivity).
  split; [done|]. split; [exact Hd|]. split; [|exact Hw].
  change (state (create_client (Some 1%nat) srv0)) with (joined 1 srv0) in Heq.
  rewrite Hd, Hw in Heq. by apply (app_inv_head [x01; x02; x03]).
Defined.

(** ** Readiness *)

(** X2. [poll] changes nothing and reports what a call would find:
    POLLIN and POLLRDNORM are set exactly when the client has unread bytes,
    that is exactly when a non-blocking [read] would not return [-EAGAIN];
    POLLOUT and POLLWRNORM are set exactly when there is room, that is
    exactly when a non-blocking [write] would not return [-EAGAIN]; no
    other bit is set. *)
Theorem poll_readiness (cnt : nat) (signal : bool) (length : nat)
    (usrbuf : list byte) (srv : kerneltalk_server) :
  wf srv -> cnt ∈ client_list srv ->
  let mask := value (kerneltalk_poll cnt srv) in
  state (kerneltalk_poll cnt srv) = srv /\
  (Z.land mask (Z.lor POLLIN POLLRDNORM) = Z.lor POLLIN POLLRDNORM <-> unread cnt srv > 0) /\
  (Z.land mask (Z.lor POLLIN POLLRDNORM) = 0 <->
   fst (value (kerneltalk_read cnt true signal length srv)) = Returned (- EAGAIN)) /\
  (Z.land mask (Z.lor POLLOUT POLLWRNORM) = Z.lor POLLOUT POLLWRNORM <-> room srv > 0) /\
  (Z.land mask (Z.lor POLLOUT POLLWRNORM) = 0 <->
   value (kerneltalk_write true signal usrbuf srv) = Returned (- EAGAIN)) /\
  Z.land mask (Z.lnot (Z.lor (Z.lor POLLIN POLLRDNORM) (Z.lor POLLOUT POLLWRNORM))) = 0.
Proof.
  intros Hwf Hin mask.
  pose proof (DIST_range _ _ (wf_offset srv Hwf cnt Hin) (wf_end srv Hwf)) as Hu.
  fold (unread cnt srv) in Hu.
  pose proof (room_range srv Hwf) as Hr.
  assert (Hmask : mask = Z.lor (if unread cnt srv >? 0 then Z.lor POLLIN POLLRDNORM else 0)
                               (if room srv >? 0 then Z.lor POLLOUT POLLWRNORM else 0)).
  { unfold mask, kerneltalk_poll, bind, poll_wait, down_write, up_write, emit, get, ret.
    cbv beta iota. rewrite room_to_write_eq, <- room_eq.
    cbn [value fst]. by destruct (unread cnt srv >? 0), (room srv >? 0). }
  assert (Hread : fst (value (kerneltalk_read cnt true signal length srv))
                  = Returned (- EAGAIN) <-> unread cnt srv = 0).
  { destruct (decide (unread cnt srv = 0)) as [H0|H0].
    - rewrite kerneltalk_read_no_data by done. done.
    - rewrite kerneltalk_read_data by (done || by apply wf_offset || by apply wf_end).
      cbn [value fst]. split; [|done]. intros [= H]. unfold EAGAIN in H. lia. }
  assert (Hwrite : value (kerneltalk_write true signal usrbuf srv)
                   = Returned (- EAGAIN) <-> room srv = 0).
  { destruct (decide (room srv = 0)) as [H0|H0].
    - rewrite kerneltalk_write_no_room by done. done.
    - rewrite kerneltalk_write_room by done.
      cbn [value fst]. split; [|done]. intros [= H]. unfold EAGAIN in H. lia. }
  split; [reflexivity|].
  rewrite Hread, Hwrite, Hmask. clear Hread Hwrite Hmask mask.
  revert Hu Hr. generalize (unread cnt srv) (room srv). intros u r Hu Hr.
  unfold POLLIN, POLLRDNORM, POLLOUT, POLLWRNORM.
  destruct (Z.gtb_spec u 0), (Z.gtb_spec r 0); repeat split; intros;
    first [ lia | reflexivity
          | exfalso; match goal with H : Z.land _ _ = _ |- _ =>
                       vm_compute in H; discriminate H end ].
Qed.

Lemma poll_readiness_witness :
  let srv := mk_server 0 [2; 1]%nat (fun c => match c with 1%nat => 5 | _ => 6 end)
               (replicate 2048 x00) 5 in
  wf srv /\ value (kerneltalk_poll 1 srv) = 0 /\
  value (kerneltalk_poll 2 srv) = Z.lor POLLIN POLLRDNORM /\
  fst (value (kerneltalk_read 1 true false 3 srv)) = Returned (- EAGAIN) /\
  value (kerneltalk_write true false [x01] srv) = Returned (- EAGAIN).
Proof.
  intros srv.
  assert (Hwf : wf srv) by wf_concrete.
  assert (Hin : 1%nat ∈ client_list srv) by (right; left).
  destruct (poll_readiness 1 false 3 [x01] srv Hwf Hin) as (_ & _ & Hr & _ & Hw & _).
  refine (conj Hwf (conj eq_refl (conj eq_refl (conj _ _)))).
  - apply Hr. reflexivity.
  - apply Hw. reflexivity.
Defined.

(** ** The room *)

Lemma max_unread_attained srv :
  client_list srv <> [] -> wf srv ->
  exists cnt, cnt ∈ client_list srv /\ unread cnt srv = max_unread srv.
Proof.
  intros Hne Hwf.
  assert (Hpos : forall c, c ∈ client_list srv -> 0 <= unread c srv).
  { intros c Hc.
    pose proof (DIST_range _ _ (wf_offset srv Hwf c Hc) (wf_end srv Hwf)) as H.
    fold (unread c srv) in H. lia. }
  unfold max_unread. clear Hwf.
  induction (client_list srv) as [|c l IH]; [done|]. simpl.
  destruct l as [|c' l'].
  - exists c. split; [by left|]. simpl. specialize (Hpos c ltac:(left)). lia.
  - destruct IH as (c1 & Hc1 & Heq); [done|intros x Hx; apply Hpos; by right|].
    destruct (Z.max_spec (unread c srv)
                (foldr Z.max 0 (map (fun cnt => unread cnt srv) (c' :: l'))))
      as [[Hlt ->]|[Hge ->]].
    + exists c1. split; [by right|done].
    + exists c. split; [by left|done].
Qed.

(** X3. On a well-formed server the room is [KERNELTALK_BUF - 1] less the
    largest unread count: it is never negative and never more than
    [KERNELTALK_BUF - 1]; it is [KERNELTALK_BUF - 1] exactly when no client
    has an unread byte, and 0 exactly when some client has
    [KERNELTALK_BUF - 1] unread bytes; and every client's unread bytes and
    the room together fit into [KERNELTALK_BUF - 1]. *)
Theorem room_capacity (srv : kerneltalk_server) :
  wf srv ->
  0 <= room srv <= KERNELTALK_BUF - 1 /\
  (room srv = KERNELTALK_BUF - 1 <-> forall cnt, cnt ∈ client_list srv -> unread cnt srv = 0) /\
  (room srv = 0 <->
   exists cnt, cnt ∈ client_list srv /\ unread cnt srv = KERNELTALK_BUF - 1) /\
  (forall cnt, cnt ∈ client_list srv -> unread cnt srv + room srv <= KERNELTALK_BUF - 1).
Proof.
  intros Hwf.
  pose proof (room_max_unread srv Hwf) as Hroom.
  pose proof (max_unread_range srv Hwf) as Hmax.
  assert (Hpos : forall c, c ∈ client_list srv -> 0 <= unread c srv).
  { intros c Hc.
    pose proof (DIST_range _ _ (wf_offset srv Hwf c Hc) (wf_end srv Hwf)) as H.
    fold (unread c srv) in H. lia. }
  split; [unfold KERNELTALK_BUF in *; lia|]. split; [|split].
  - split.
    + intros H c Hc. pose proof (max_unread_ge srv c Hc). specialize (Hpos c Hc). lia.
    + intros H. destruct (client_list srv) as [|c l] eqn:E.
      * unfold max_unread in Hroom. rewrite E in Hroom. simpl in Hroom. lia.
      * destruct (max_unread_attained srv) as (c1 & Hc1 & Heq); [by rewrite E|done|].
        rewrite E in Hc1. rewrite (H c1 Hc1) in Heq. lia.
  - split.
    + intros H. destruct (client_list srv) as [|c l] eqn:E.
      * unfold max_unread in Hroom. rewrite E in Hroom. simpl in Hroom.
        unfold KERNELTALK_BUF in *. lia.
      * destruct (max_unread_attained srv) as (c1 & Hc1 & Heq); [by rewrite E|done|].
        rewrite E in Hc1. exists c1. split; [done|lia].
    + intros (c & Hc & Hu). pose proof (max_unread_ge srv c Hc). lia.
  - intros c Hc. pose proof (max_unread_ge srv c Hc). lia.
Qed.

Lemma room_capacity_witness :
  let srv := mk_server 0 [2; 1]%nat (fun c => match c with 1%nat => 5 | _ => 6 end)
               (replicate 2048 x00) 5 in
  wf srv /\ room srv = 0 /\ unread 2 srv = KERNELTALK_BUF - 1.
Proof.
  intros srv.
  assert (Hwf : wf srv) by wf_concrete.
  destruct (room_capacity srv Hwf) as (_ & _ & [_ H0] & _).
  refine (conj Hwf (conj (H0 _) eq_refl)).
  exists 2%nat. split; [left|reflexivity].
Defined.

Lemma foldr_max_shift {A} (f g : A -> Z) (l : list A) (d : Z) :
  l <> [] -> 0 <= d -> (forall x, x ∈ l -> 0 <= f x /\ g x = f x + d) ->
  foldr Z.max 0 (map g l) = foldr Z.max 0 (map f l) + d.
Proof.
  intros Hne Hd. induction l as [|x l IH]; [done|]. intros Hl. simpl.
  destruct (Hl x ltac:(left)) as [Hx ->].
  destruct l as [|y l'].
  - simpl. lia.
  - rewrite IH; [lia|done|]. intros z Hz. apply Hl. by right.
Qed.

Lemma room_written w srv :
  wf srv -> client_list srv <> [] -> Z.of_nat (length w) <= room srv ->
  room (written w srv) = room srv - Z.of_nat (length w).
Proof.
  intros Hwf Hne Hfit. pose proof (room_range srv Hwf) as Hr.
  assert (Hwf' : wf (written w srv)) by (by apply wf_written).
  rewrite !room_max_unread by done.
  assert (max_unread (written w srv) = max_unread srv + Z.of_nat (length w)); [|lia].
  unfold max_unread. change (client_list (written w srv)) with (client_list srv).
  apply foldr_max_shift; [done|lia|]. intros c Hc. split.
  - pose proof (DIST_range _ _ (wf_offset srv Hwf c Hc) (wf_end srv Hwf)) as H.
    fold (unread c srv) in H. lia.
  - destruct (pending_written c w srv Hwf Hc) as [_ ->]; lia.
Qed.

(** X4. With at least one client, a [write] that finds room takes
    [n = min(room, len)] bytes and leaves exactly [room - n] bytes of room,
    so when it takes less than it was given there is no room left and the
    next [write] cannot proceed: it returns [-EAGAIN] in non-blocking mode
    and otherwise sleeps (or is interrupted), storing nothing. *)
Theorem write_uses_room (O_NONBLOCK signal : bool) (usrbuf : list byte)
    (srv : kerneltalk_server) :
  wf srv -> client_list srv <> [] -> room srv > 0 ->
  let r := kerneltalk_write O_NONBLOCK signal usrbuf srv in
  let n := Z.min (room srv) (Z.of_nat (length usrbuf)) in
  value r = Returned n /\
  room (state r) = room srv - n /\
  (n < Z.of_nat (length usrbuf) ->
   forall O_NONBLOCK' signal' usrbuf',
     let r' := kerneltalk_write O_NONBLOCK' signal' usrbuf' (state r) in
     value r' = (if O_NONBLOCK' then Returned (- EAGAIN)
                 else if signal' then Returned (- ERESTARTSYS) else Sleeping wwq) /\
     state r' = state r).
Proof.
  intros Hwf Hne Hroom r n. subst r.
  pose proof (room_range srv Hwf) as Hr.
  rewrite kerneltalk_write_room by lia. cbn [value state fst snd].
  set (w := take (Z.to_nat (room srv)) usrbuf).
  assert (Hn : Z.of_nat (length w) = n).
  { unfold w, n. rewrite length_take. lia. }
  assert (Hwf' : wf (written w srv)) by (by apply wf_written).
  assert (Hroom' : room (written w srv) = room srv - n).
  { rewrite <- Hn. apply room_written; [done|done|lia]. }
  split; [by rewrite Hn|]. split; [done|].
  intros Hshort nb' sg' buf'.
  rewrite kerneltalk_write_no_room by lia. by destruct nb', sg'.
Qed.

Lemma write_uses_room_witness :
  let srv := mk_server 0 [1]%nat (fun _ => 10) (replicate 2048 x00) 7 in
  let r := kerneltalk_write true false [x01; x02; x03] srv in
  wf srv /\ room srv = 2 /\ value r = Returned 2 /\ room (state r) = 0 /\
  value (kerneltalk_write true false [x03] (state r)) = Returned (- EAGAIN).
Proof.
  intros srv r.
  assert (Hwf : wf srv) by wf_concrete.
  assert (Hne : client_list srv <> []) by done.
  assert (Hroom : room srv > 0) by reflexivity.
  destruct (write_uses_room true false [x01; x02; x03] srv Hwf Hne Hroom)
    as (Hv & Hr & Hnext).
  destruct (Hnext eq_refl true false [x03]) as [Hv' _].
  exact (conj Hwf (conj eq_refl (conj Hv (conj Hr Hv')))).
Defined.

(** ** Reading in pieces *)

Lemma consume_plus cnt k1 : forall k2 srv,
  consume cnt (k1 + k2) srv = consume cnt k2 (consume cnt k1 srv).
Proof. induction k1 as [|k1 IH]; intros k2 srv; simpl; [done|apply IH]. Qed.

(** X5. Two reads in a row, for [a] and then [b] bytes, return together
    the bytes one read for [a + b] bytes returns, and leave the server in
    the same state. *)
Theorem read_in_pieces (cnt : nat) (nb1 sg1 nb2 sg2 nb sg : bool) (a b : nat)
    (srv : kerneltalk_server) :
  wf srv -> cnt ∈ client_list srv ->
  let r1 := kerneltalk_read cnt nb1 sg1 a srv in
  let r2 := kerneltalk_read cnt nb2 sg2 b (state r1) in
  let r := kerneltalk_read cnt nb sg (a + b) srv in
  snd (value r1) ++ snd (value r2) = snd (value r) /\
  state r2 = state r.
Proof.
  intros Hwf Hin r1 r2 r.
  pose proof (DIST_range _ _ (wf_offset srv Hwf cnt Hin) (wf_end srv Hwf)) as Hu.
  fold (unread cnt srv) in Hu.
  destruct (kerneltalk_read_pending cnt nb1 sg1 a srv Hwf Hin) as [Hv1 Hp1].
  fold r1 in Hv1, Hp1.
  assert (Hs1 : state r1 = consume cnt (a `min` Z.to_nat (unread cnt srv)) srv)
    by (by apply kerneltalk_read_state).
  assert (Hwf1 : wf (state r1)) by (rewrite Hs1; by apply wf_consume).
  assert (Hin1 : cnt ∈ client_list (state r1))
    by (by rewrite Hs1, consume_client_list).
  destruct (kerneltalk_read_pending cnt nb2 sg2 b (state r1) Hwf1 Hin1) as [Hv2 _].
  fold r2 in Hv2.
  destruct (kerneltalk_read_pending cnt nb sg (a + b) srv Hwf Hin) as [Hv _].
  fold r in Hv.
  split.
  - rewrite Hv1, Hv2, Hp1, Hv. by rewrite take_take_drop.
  - unfold r2, r. rewrite !kerneltalk_read_state by done.
    destruct (pending_consume cnt (a `min` Z.to_nat (unread cnt srv)) srv)
      as [_ Hu1]; [done|done|lia|].
    rewrite Hs1, Hu1, <- consume_plus. f_equal. lia.
Qed.

Lemma read_in_pieces_witness :
  let srv := mk_server 0 [1]%nat (fun _ => 2046)
               (<[2046%nat := x07]> (<[2047%nat := x08]> (<[0%nat := x09]>
                  (replicate 2048 x00)))) 1 in
  let r1 := kerneltalk_read 1 true false 2 srv in
  let r2 := kerneltalk_read 1 true false 5 (state r1) in
  wf srv /\ snd (value r1) = [x07; x08] /\ snd (value r2) = [x09] /\
  snd (value (kerneltalk_read 1 true false 7 srv)) = [x07; x08; x09].
Proof.
  intros srv r1 r2.
  assert (Hwf : wf srv) by wf_concrete.
  assert (Hin : 1%nat ∈ client_list srv) by left.
  destruct (read_in_pieces 1 true false true false true false 2 5 srv Hwf Hin) as [Hv _].
  assert (H1 : snd (value r1) = [x07; x08]) by (vm_compute; reflexivity).
  assert (H2 : snd (value r2) = [x09]) by (vm_compute; reflexivity).
  refine (conj Hwf (conj H1 (conj H2 _))).
  fold r1 r2 in Hv. rewrite H1, H2 in Hv. symmetry. exact Hv.
Defined.

(** ** Sleeping and waking *)

Lemma kerneltalk_read_data_outcome cnt O_NONBLOCK signal length srv :
  unread cnt srv <> 0 ->
  exists n, fst (value (kerneltalk_read cnt O_NONBLOCK signal length srv)) = Returned n /\
  events (kerneltalk_read cnt O_NONBLOCK signal length srv) = read_events.
Proof.
  intros Hd. unfold kerneltalk_read. rewrite !bind_events.
  unfold bind at 1 2. cbn [down_read emit get events value state fst snd app].
  destruct (Z.eqb_spec (unread cnt srv) 0) as [|_]; [done|].
  rewrite !bind_events, read_loop_events.
  unfold bind. destruct (read_loop cnt length 0 srv) as [[[n out] s] t].
  exists n. done.
Qed.

(** X6. A call sleeps only when it must and holds nothing while it
    sleeps: [read] sleeps only in blocking mode with no signal pending and
    nothing unread, on [rwq]; [write] only in blocking mode with no signal
    pending and no room, on [wwq]; in both cases the server is as the call
    found it, no byte was transferred and every lock the call took has been
    released. *)
Theorem sleeps_only_when_stuck (cnt : nat) (O_NONBLOCK signal : bool) (length : nat)
    (usrbuf : list byte) (srv : kerneltalk_server) (q : wait_queue) :
  (fst (value (kerneltalk_read cnt O_NONBLOCK signal length srv)) = Sleeping q ->
   q = rwq /\ O_NONBLOCK = false /\ signal = false /\ unread cnt srv = 0 /\
   snd (value (kerneltalk_read cnt O_NONBLOCK signal length srv)) = [] /\
   state (kerneltalk_read cnt O_NONBLOCK signal length srv) = srv /\
   held_after [] (events (kerneltalk_read cnt O_NONBLOCK signal length srv)) = []) /\
  (value (kerneltalk_write O_NONBLOCK signal usrbuf srv) = Sleeping q ->
   q = wwq /\ O_NONBLOCK = false /\ signal = false /\ room srv = 0 /\
   state (kerneltalk_write O_NONBLOCK signal usrbuf srv) = srv /\
   held_after [] (events (kerneltalk_write O_NONBLOCK signal usrbuf srv)) = []).
Proof.
  split.
  - destruct (decide (unread cnt srv = 0)) as [H0|H0].
    + rewrite kerneltalk_read_no_data by done. cbn [value state events fst snd].
      destruct O_NONBLOCK, signal; try done. by intros [= <-].
    + destruct (kerneltalk_read_data_outcome cnt O_NONBLOCK signal length srv H0)
        as (n & -> & _). done.
  - destruct (decide (room srv = 0)) as [H0|H0].
    + rewrite kerneltalk_write_no_room by done. cbn [value state events fst snd].
      destruct O_NONBLOCK, signal; try done. by intros [= <-].
    + by rewrite kerneltalk_write_room.
Qed.

Lemma sleeps_only_when_stuck_witness :
  let srv := mk_server 0 [2; 1]%nat (fun c => match c with 1%nat => 5 | _ => 6 end)
               (replicate 2048 x00) 5 in
  fst (value (kerneltalk_read 1 false false 4 srv)) = Sleeping rwq /\
  value (kerneltalk_write false false [x01] srv) = Sleeping wwq /\
  state (kerneltalk_read 1 false false 4 srv) = srv /\
  state (kerneltalk_write false false [x01] srv) = srv.
Proof.
  intros srv.
  destruct (sleeps_only_when_stuck 1 false false 4 [x01] srv rwq) as [Hr _].
  destruct (sleeps_only_when_stuck 1 false false 4 [x01] srv wwq) as [_ Hw].
  destruct (Hr eq_refl) as (_ & _ & _ & _ & _ & Hsr & _).
  destruct (Hw eq_refl) as (_ & _ & _ & _ & Hsw & _).
  exact (conj eq_refl (conj eq_refl (conj Hsr Hsw))).
Defined.

(** X7. Who is woken: a [read] that found unread bytes wakes the writers'
    queue [wwq] once, a [write] that found room wakes the readers' queue
    [rwq] once; a [read] or [write] that could not proceed wakes nobody;
    [poll], [open] and [flush] never wake anybody (a close never wakes a
    sleeping writer, whatever room it frees). *)
Theorem wake_up_protocol (cnt : nat) (O_NONBLOCK signal : bool) (length : nat)
    (usrbuf : list byte) (srv : kerneltalk_server)
    (server_list : list kerneltalk_server) :
  wakes (events (kerneltalk_read cnt O_NONBLOCK signal length srv))
  = (if decide (unread cnt srv = 0) then [] else [wwq]) /\
  wakes (events (kerneltalk_write O_NONBLOCK signal usrbuf srv))
  = (if decide (room srv = 0) then [] else [rwq]) /\
  wakes (events (kerneltalk_poll cnt srv)) = [] /\
  (forall i kmalloc_srv kmalloc_cnt,
     wakes (events (kerneltalk_open i kmalloc_srv kmalloc_cnt server_list)) = []) /\
  (forall i c f_count,
     wakes (events (kerneltalk_flush i c f_count server_list)) = []).
Proof.
  split; [|split; [|split; [|split]]].
  - destruct (decide (unread cnt srv = 0)) as [H0|H0].
    + by rewrite kerneltalk_read_no_data.
    + destruct (kerneltalk_read_data_outcome cnt O_NONBLOCK signal length srv H0)
        as (n & _ & ->). done.
  - destruct (decide (room srv = 0)) as [H0|H0].
    + rewrite kerneltalk_write_no_room by done. by destruct O_NONBLOCK.
    + by rewrite kerneltalk_write_room.
  - by rewrite kerneltalk_poll_events.
  - intros i ks kc.
    assert (H : Forall (fun t => wakes t = []) open_traces) by (by repeat constructor).
    rewrite list.Forall_forall in H. apply H, kerneltalk_open_events.
  - intros i c n.
    assert (H : Forall (fun t => wakes t = []) flush_traces) by (by repeat constructor).
    rewrite list.Forall_forall in H. apply H, kerneltalk_flush_events.
Qed.

(** ** A client leaves *)

(** X8. When a file is closed for the last time and other clients remain,
    [flush] unlinks that client and nothing else: the server stays in the
    list, it is still well formed, the other clients keep their place in
    the list, their offsets and their unread bytes, and the room does not
    shrink. *)
Theorem flush_keeps_the_others (i cnt : nat) (server_list : list kerneltalk_server)
    (srv : kerneltalk_server) :
  find_server i server_list = Some srv -> wf srv ->
  client_list (left_ cnt srv) <> [] ->
  let srv' := left_ cnt srv in
  find_server i (state (kerneltalk_flush i cnt 1 server_list)) = Some srv' /\
  wf srv' /\
  client_list srv' = filter (fun c => c <> cnt) (client_list srv) /\
  (forall c, c ∈ client_list srv' ->
     offset srv' c = offset srv c /\ pending c srv' = pending c srv) /\
  room srv <= room srv'.
Proof.
  intros Hfind Hwf Hne srv'.
  destruct (kerneltalk_flush_last_close i cnt server_list srv Hfind) as [_ Hs].
  pose proof (wf_left cnt srv Hwf) as Hwf'. fold srv' in Hwf'.
  split; [|split; [done|split; [done|split]]].
  - rewrite Hs. destruct (client_list (left_ cnt srv)) eqn:E; [done|].
    apply (find_store_server i server_list srv); [done|].
    change (inode srv') with (inode srv). by apply (find_server_inode i server_list).
  - intros c Hc. split; [done|]. by apply pending_same.
  - rewrite !room_max_unread by done.
    assert (max_unread srv' <= max_unread srv); [|lia].
    apply foldr_max_le; [apply max_unread_nonneg|].
    intros c Hc. change (unread c srv') with (unread c srv).
    apply max_unread_ge. simpl in Hc. unfold list_del in Hc.
    by apply list_elem_of_filter in Hc as [_ ?].
Qed.

Lemma flush_keeps_the_others_witness :
  let srv := mk_server 3 [2; 1]%nat (fun c => match c with 1%nat => 5 | _ => 6 end)
               (replicate 2048 x00) 5 in
  wf srv /\
  room srv = 0 /\
  client_list (left_ 2 srv) = [1%nat] /\
  find_server 3 (state (kerneltalk_flush 3 2 1 [srv])) = Some (left_ 2 srv) /\
  room srv <= room (left_ 2 srv).
Proof.
  intros srv.
  assert (Hwf : wf srv) by wf_concrete.
  assert (Hne : client_list (left_ 2 srv) <> []) by (by vm_compute).
  destruct (flush_keeps_the_others 3 2 [srv] srv eq_refl Hwf Hne)
    as (Hf & _ & _ & _ & Hr).
  exact (conj Hwf (conj eq_refl (conj eq_refl (conj Hf Hr)))).
Defined.

(** ** Indices stay inside the buffer *)

(** X9. On every server reached from its creation by open, flush, read,
    write and poll calls, [end] and the offset of every client are indices
    of the 2048-byte buffer, no client is linked twice, and the sum
    [blocking_offset + KERNELTALK_BUF - 1] that [room_to_write] reduces
    modulo [KERNELTALK_BUF] is non-negative and below [2 * KERNELTALK_BUF]:
    the code indexes [buffer] without a check and never leaves it. *)
Theorem indices_in_bounds (i : nat) (mem : list byte) (ops : list op)
    (srv : kerneltalk_server) :
  Z.of_nat (length mem) = KERNELTALK_BUF ->
  run ops (fresh_server i mem) = Some srv ->
  length (buffer srv) = 2048%nat /\
  (0 <= end_ srv /\ (Z.to_nat (end_ srv) < length (buffer srv))%nat) /\
  (forall cnt, cnt ∈ client_list srv ->
     0 <= offset srv cnt /\ (Z.to_nat (offset srv cnt) < length (buffer srv))%nat) /\
  NoDup (client_list srv) /\
  0 <= blocking_offset srv + KERNELTALK_BUF - 1 < 2 * KERNELTALK_BUF.
Proof.
  intros Hmem Hrun.
  assert (Hwf : wf srv) by (eapply wf_run; [by apply wf_fresh_server|done]).
  destruct (blocking_offset_unread srv Hwf) as [Hb _].
  destruct Hwf as [He Hlen Ho Hn].
  unfold in_ring, KERNELTALK_BUF in *.
  split; [lia|]. split; [lia|]. split; [|split; [done|lia]].
  intros cnt Hc. specialize (Ho cnt Hc). lia.
Qed.

Lemma indices_in_bounds_witness :
  let mem := replicate 2048 x00 in
  let ops := [op_open 1; op_write true false (replicate 2047 x01);
              op_read 1 true false 3; op_write true false [x02; x03; x04; x05]] in
  exists srv,
    run ops (fresh_server 0 mem) = Some srv /\
    end_ srv = 2 /\ offset srv 1%nat = 3 /\ length (buffer srv) = 2048%nat.
Proof.
  intros mem ops.
  destruct (run ops (fresh_server 0 mem)) as [srv|] eqn:Hrun;
    [|vm_compute in Hrun; discriminate Hrun].
  exists srv.
  destruct (indices_in_bounds 0 mem ops srv eq_refl Hrun) as (Hlen & _).
  assert (He : end_ <$> run ops (fresh_server 0 mem) = Some 2)
    by (vm_compute; reflexivity).
  assert (Ho : (fun s => offset s 1%nat) <$> run ops (fresh_server 0 mem) = Some 3)
    by (vm_compute; reflexivity).
  rewrite Hrun in He, Ho. injection He as He. injection Ho as Ho.
  exact (conj eq_refl (conj He (conj Ho Hlen))).
Defined.

(** ** The server list *)

Lemma find_server_elem i server_list srv :
  find_server i server_list = Some srv -> srv ∈ server_list.
Proof.
  induction server_list as [|s rest IH]; simpl; [done|].
  destruct (Nat.eqb (inode s) i); [intros [= <-]; by left|].
  intros H. right. by apply IH.
Qed.

Lemma find_server_none i server_list :
  find_server i server_list = None <-> i ∉ map inode server_list.
Proof.
  induction server_list as [|s rest IH]; simpl.
  - split; [intros _; apply not_elem_of_nil|done].
  - destruct (Nat.eqb_spec (inode s) i) as [Heq|Hne].
    + split; [done|]. intros H. exfalso. apply H. rewrite Heq. by left.
    + rewrite IH, not_elem_of_cons. split; [intros H; split; [congruence|done]|by intros [_ H]].
Qed.

Lemma store_server_same i server_list srv :
  find_server i server_list = Some srv -> store_server i srv server_list = server_list.
Proof.
  induction server_list as [|s rest IH]; simpl; [done|].
  destruct (Nat.eqb (inode s) i); [by intros [= ->]|].
  intros H. by rewrite IH.
Qed.

Lemma store_server_none i srv' server_list :
  find_server i server_list = None -> store_server i srv' server_list = server_list.
Proof.
  induction server_list as [|s rest IH]; simpl; [done|].
  destruct (Nat.eqb (inode s) i); [done|]. intros H. by rewrite IH.
Qed.

Lemma store_server_inodes i srv' server_list :
  inode srv' = i -> map inode (store_server i srv' server_list) = map inode server_list.
Proof.
  intros Hi. induction server_list as [|s rest IH]; simpl; [done|].
  destruct (Nat.eqb_spec (inode s) i) as [Heq|Hne]; simpl; [by rewrite Hi, Heq|].
  by rewrite IH.
Qed.

Lemma store_server_elem i srv' server_list x :
  x ∈ store_server i srv' server_list -> x = srv' \/ x ∈ server_list.
Proof.
  induction server_list as [|s rest IH]; simpl; [by right|].
  destruct (Nat.eqb (inode s) i).
  - intros H. apply elem_of_cons in H as [->|H]; [by left|right; by right].
  - intros H. apply elem_of_cons in H as [->|H]; [right; by left|].
    destruct (IH H) as [->|H']; [by left|right; by right].
Qed.

Lemma find_store_other i j srv' server_list :
  inode srv' = i -> j <> i ->
  find_server j (store_server i srv' server_list) = find_server j server_list.
Proof.
  intros Hi Hne. induction server_list as [|s rest IH]; simpl; [done|].
  destruct (Nat.eqb_spec (inode s) i) as [Heq|Hne']; simpl.
  - rewrite Hi. destruct (Nat.eqb_spec i j); [congruence|].
    destruct (Nat.eqb_spec (inode s) j); [congruence|done].
  - by rewrite IH.
Qed.

Lemma unlink_server_elem i server_list x :
  x ∈ unlink_server i server_list -> x ∈ server_list.
Proof.
  induction server_list as [|s rest IH]; simpl; [done|].
  destruct (Nat.eqb (inode s) i); [by right|].
  intros H. apply elem_of_cons in H as [->|H]; [by left|right; by apply IH].
Qed.

Lemma unlink_server_inodes i server_list :
  NoDup (map inode server_list) ->
  NoDup (map inode (unlink_server i server_list)) /\
  i ∉ map inode (unlink_server i server_list).
Proof.
  induction server_list as [|s rest IH]; simpl.
  - intros _. split; [constructor|apply not_elem_of_nil].
  - intros Hn. apply list.NoDup_cons in Hn as [Hs Hn].
    destruct (Nat.eqb_spec (inode s) i) as [Heq|Hne].
    + split; [done|]. by rewrite <- Heq.
    + destruct (IH Hn) as [Hn' Hi]. simpl. split.
      * apply list.NoDup_cons. split; [|done]. intros H. apply Hs.
        apply list_elem_of_fmap in H as (x & -> & Hx).
        apply list_elem_of_fmap. exists x. split; [done|].
        by apply (unlink_server_elem i).
      * rewrite not_elem_of_cons. split; [congruence|done].
Qed.

Lemma find_unlink_other i j server_list :
  j <> i -> find_server j (unlink_server i server_list) = find_server j server_list.
Proof.
  intros Hne. induction server_list as [|s rest IH]; simpl; [done|].
  destruct (Nat.eqb_spec (inode s) i) as [Heq|Hne']; simpl.
  - destruct (Nat.eqb_spec (inode s) j); [congruence|done].
  - by rewrite IH.
Qed.

Lemma dir_ok_store i srv srv' server_list :
  dir_ok server_list -> find_server i server_list = Some srv ->
  inode srv' = inode srv -> wf srv' -> client_list srv' <> [] ->
  dir_ok (store_server i srv' server_list).
Proof.
  intros [Hn Hs] Hfind Hi Hwf Hne.
  pose proof (find_server_inode i server_list srv Hfind) as Hi'.
  split.
  - rewrite store_server_inodes; [done|congruence].
  - intros x Hx. apply store_server_elem in Hx as [->|Hx]; [done|by apply Hs].
Qed.

Lemma dir_ok_unlink i server_list :
  NoDup (map inode server_list) ->
  (forall srv, srv ∈ unlink_server i server_list -> wf srv /\ client_list srv <> []) ->
  dir_ok (unlink_server i server_list).
Proof.
  intros Hn Hs. split; [by apply unlink_server_inodes|done].
Qed.

Lemma read_loop_frame cnt length : forall bytes_read srv,
  inode (state (read_loop cnt length bytes_read srv)) = inode srv.
Proof.
  induction length as [|length IH]; intros br srv; simpl; [done|].
  unfold bind, get, modify. destruct (unread cnt srv >? 0); [|done].
  specialize (IH (br + 1) (set_offset cnt (Z.rem (offset srv cnt + 1) KERNELTALK_BUF) srv)).
  destruct (read_loop cnt length (br + 1) _) as [[r s] t]. exact IH.
Qed.

Lemma kerneltalk_read_inode cnt O_NONBLOCK signal length srv :
  inode (state (kerneltalk_read cnt O_NONBLOCK signal length srv)) = inode srv.
Proof.
  destruct (decide (unread cnt srv = 0)) as [H0|H0].
  - by rewrite kerneltalk_read_no_data.
  - unfold kerneltalk_read, bind, down_read, up_read, wake_up, emit, get, ret.
    destruct (Z.eqb_spec (unread cnt srv) 0) as [|_]; [done|].
    pose proof (read_loop_frame cnt length 0 srv) as H.
    by destruct (read_loop cnt length 0 srv) as [[r s] t].
Qed.

Lemma kerneltalk_write_inode O_NONBLOCK signal usrbuf srv :
  inode (state (kerneltalk_write O_NONBLOCK signal usrbuf srv)) = inode srv /\
  client_list (state (kerneltalk_write O_NONBLOCK signal usrbuf srv)) = client_list srv.
Proof.
  by destruct (kerneltalk_write_state O_NONBLOCK signal usrbuf srv) as [->|[-> _]].
Qed.

Lemma on_server_state {A} i (m : M kerneltalk_server A) d server_list :
  state (on_server i m d server_list) =
  match find_server i server_list with
  | Some srv => store_server i (state (m srv)) server_list
  | None => server_list
  end.
Proof.
  unfold on_server. destruct (find_server i server_list) as [srv|]; [|done].
  by destruct (m srv) as [[a s] t].
Qed.

Lemma check_free_server_state i server_list :
  state (check_free_server i server_list) =
  match find_server i server_list with
  | Some srv => match client_list srv with
                | [] => unlink_server i server_list
                | _ :: _ => server_list
                end
  | None => server_list
  end.
Proof.
  unfold check_free_server, bind, get, modify, mutex_lock_interruptible, mutex_unlock, emit.
  cbv beta iota. destruct (find_server i server_list) as [srv|]; [|done].
  cbn [option_map]. by destruct (client_list srv).
Qed.

(** The three ways [open] can go. *)
Lemma kerneltalk_open_cases i kmalloc_srv kmalloc_cnt server_list :
  let r := kerneltalk_open i kmalloc_srv kmalloc_cnt server_list in
  match find_server i server_list, kmalloc_srv, kmalloc_cnt with
  | Some srv, _, Some cnt =>
      value r = SUCCESS /\ state r = store_server i (joined cnt srv) server_list
  | Some srv, _, None =>
      value r = - ENOMEM /\
      state r = match client_list srv with
                | [] => unlink_server i server_list
                | _ :: _ => server_list
                end
  | None, Some mem, Some cnt =>
      value r = SUCCESS /\ state r = joined cnt (fresh_server i mem) :: server_list
  | None, Some mem, None => value r = - ENOMEM /\ state r = server_list
  | None, None, _ => value r = - ENOMEM /\ state r = server_list
  end.
Proof.
  intros r. subst r.
  destruct (find_server i server_list) as [srv|] eqn:Hfind.
  - destruct kmalloc_cnt as [cnt|].
    + by rewrite (kerneltalk_open_existing i kmalloc_srv cnt server_list srv).
    + unfold kerneltalk_open, get_server, bind, get, mutex_lock_interruptible,
        mutex_unlock, emit, ret.
      cbv beta iota. rewrite Hfind. cbv beta iota.
      unfold on_server. rewrite Hfind. cbn [create_client ret].
      rewrite (store_server_same i server_list srv Hfind).
      pose proof (check_free_server_state i server_list) as Hs.
      rewrite Hfind in Hs.
      destruct (check_free_server i server_list) as [[u s] t].
      cbn [state fst snd] in Hs. subst s. done.
  - destruct kmalloc_srv as [mem|].
    + destruct kmalloc_cnt as [cnt|].
      * by rewrite (kerneltalk_open_new i mem cnt server_list).
      * unfold kerneltalk_open, get_server, create_server, bind, get, modify,
          mutex_lock_interruptible, mutex_unlock, emit, ret.
        cbv beta iota. rewrite Hfind. cbv beta iota.
        unfold on_server. cbn [find_server fresh_server inode].
        rewrite Nat.eqb_refl. cbn [create_client ret store_server inode].
        rewrite Nat.eqb_refl.
        pose proof (check_free_server_state i (mk_server i [] (fun _ => 0) mem 0 :: server_list))
          as Hs.
        cbn [find_server inode] in Hs. rewrite Nat.eqb_refl in Hs.
        cbn [client_list unlink_server inode] in Hs. rewrite Nat.eqb_refl in Hs.
        destruct (check_free_server i _) as [[u s] t].
        cbn [state fst snd] in Hs. subst s. done.
    + unfold kerneltalk_open, get_server, create_server, bind, get,
        mutex_lock_interruptible, mutex_unlock, emit, ret.
      cbv beta iota. rewrite Hfind. done.
Qed.

Lemma kerneltalk_flush_state i cnt f_count server_list :
  state (kerneltalk_flush i cnt f_count server_list) =
  if f_count =? 1 then
    match find_server i server_list with
    | Some srv =>
        match client_list (left_ cnt srv) with
        | [] => unlink_server i (store_server i (left_ cnt srv) server_list)
        | _ :: _ => store_server i (left_ cnt srv) server_list
        end
    | None => server_list
    end
  else server_list.
Proof.
  destruct (Z.eqb_spec f_count 1) as [->|Hne].
  - destruct (find_server i server_list) as [srv|] eqn:Hfind.
    + by destruct (kerneltalk_flush_last_close i cnt server_list srv Hfind) as [_ ->].
    + unfold kerneltalk_flush, bind, mutex_lock_interruptible, mutex_unlock, emit, ret.
      cbn [Z.eqb Pos.eqb negb]. cbv beta iota.
      pose proof (on_server_state i (modify (left_ cnt)) tt server_list) as Ho.
      rewrite Hfind in Ho.
      destruct (on_server i (modify (left_ cnt)) tt server_list) as [[u s] t].
      cbn [state fst snd] in Ho. subst s.
      pose proof (check_free_server_state i server_list) as Hs. rewrite Hfind in Hs.
      destruct (check_free_server i server_list) as [[u' s'] t'].
      cbn [state fst snd] in Hs. subst s'. done.
  - by rewrite kerneltalk_flush_shared.
Qed.

Lemma dir_ok_call f server_list :
  dir_ok server_list -> valid_call f server_list -> dir_ok (call_state f server_list).
Proof.
  intros Hok Hvalid. pose proof Hok as [Hn Hs].
  destruct f as [i ks kc|i c n|i c nb sg len|i nb sg buf|i c]; cbn [call_state valid_call] in *.
  - destruct Hvalid as [Hmem Hfresh].
    pose proof (kerneltalk_open_cases i ks kc server_list) as Hc. cbv zeta in Hc.
    destruct (find_server i server_list) as [srv|] eqn:Hfind.
    + destruct (Hs srv (find_server_elem i _ _ Hfind)) as [Hwf Hne].
      destruct kc as [cnt|]; destruct Hc as [_ ->].
      * apply (dir_ok_store i srv); [done|done|done| |done].
        by apply wf_joined.
      * by destruct (client_list srv).
    + destruct ks as [mem|]; [|by destruct Hc as [_ ->]].
      destruct kc as [cnt|]; destruct Hc as [_ ->]; [|done].
      split.
      * simpl. apply list.NoDup_cons. split; [|done]. by apply find_server_none.
      * intros x Hx. apply elem_of_cons in Hx as [->|Hx]; [|by apply Hs].
        split; [|done]. apply wf_joined; [|apply not_elem_of_nil].
        by apply wf_fresh_server.
  - rewrite kerneltalk_flush_state. destruct (n =? 1); [|done].
    destruct (find_server i server_list) as [srv|] eqn:Hfind; [|done].
    destruct (Hs srv (find_server_elem i _ _ Hfind)) as [Hwf Hne].
    pose proof (find_server_inode i _ _ Hfind) as Hi.
    destruct (client_list (left_ c srv)) as [|c' l'] eqn:E.
    + assert (Hin : map inode (store_server i (left_ c srv) server_list)
                    = map inode server_list) by (by apply store_server_inodes).
      apply dir_ok_unlink; [by rewrite Hin|].
      intros x Hx.
      assert (Hxi : inode x <> i).
      { destruct (unlink_server_inodes i (store_server i (left_ c srv) server_list))
          as [_ Hnot]; [by rewrite Hin|].
        intros Heq. apply Hnot.
        apply list_elem_of_fmap. exists x. split; [by rewrite Heq|done]. }
      apply unlink_server_elem, store_server_elem in Hx as [->|Hx]; [done|by apply Hs].
    + apply (dir_ok_store i srv); [done|done|done|by apply wf_left|by rewrite E].
  - rewrite on_server_state.
    destruct (find_server i server_list) as [srv|] eqn:Hfind; [|done].
    destruct (Hs srv (find_server_elem i _ _ Hfind)) as [Hwf Hne].
    rewrite kerneltalk_read_state by done.
    apply (dir_ok_store i srv); [done|done|apply consume_fields|by apply wf_consume|].
    by rewrite consume_client_list.
  - rewrite on_server_state.
    destruct (find_server i server_list) as [srv|] eqn:Hfind; [|done].
    destruct (Hs srv (find_server_elem i _ _ Hfind)) as [Hwf Hne].
    destruct (kerneltalk_write_inode nb sg buf srv) as [Hi Hl].
    apply (dir_ok_store i srv); [done|done|done| |by rewrite Hl].
    by apply (wf_step (op_write nb sg buf) srv).
  - rewrite on_server_state.
    destruct (find_server i server_list) as [srv|] eqn:Hfind; [|done].
    by rewrite kerneltalk_poll_state, store_server_same.
Qed.

Lemma dir_ok_calls fs : forall server_list,
  dir_ok server_list -> valid_calls fs server_list -> dir_ok (calls_state fs server_list).
Proof.
  induction fs as [|f fs IH]; intros sl Hok; simpl; [done|].
  intros [Hv Hvs]. apply IH; [by apply dir_ok_call|done].
Qed.

(** X10. From the empty server list on, after any sequence of open,
    flush, read, write and poll calls the list holds at most one server per
    inode, every server in it is well formed, and every server in it has at
    least one client: the last close takes the server away, and an [open]
    that fails leaves no empty server behind. *)
Theorem server_list_invariant (fs : list file_operation) :
  valid_calls fs [] ->
  let server_list := calls_state fs [] in
  NoDup (map inode server_list) /\
  (forall srv, srv ∈ server_list -> wf srv /\ client_list srv <> []) /\
  (forall i srv, find_server i server_list = Some srv ->
     inode srv = i /\ srv ∈ server_list).
Proof.
  intros Hv sl.
  assert (Hok : dir_ok sl).
  { apply dir_ok_calls; [|done]. split; [constructor|].
    intros srv H. by apply elem_of_nil in H. }
  destruct Hok as [Hn Hs]. split; [done|]. split; [done|].
  intros i srv Hfind. split; [by apply (find_server_inode i sl)|by apply (find_server_elem i)].
Qed.

Lemma server_list_invariant_witness :
  let mem := replicate 2048 x00 in
  let fs := [fop_open 7 (Some mem) (Some 1%nat); fop_open 7 None (Some 2%nat);
             fop_open 8 (Some mem) None; fop_write 7 true false [x01; x02];
             fop_read 7 2 true false 1; fop_flush 7 1 1; fop_open 9 (Some mem) (Some 1%nat);
             fop_flush 9 1 1] in
  valid_calls fs [] /\
  map inode (calls_state fs []) = [7%nat] /\
  map client_list (calls_state fs []) = [[2%nat]] /\
  NoDup (map inode (calls_state fs [])).
Proof.
  intros mem fs.
  assert (Hv : valid_calls fs []) by compute_done.
  destruct (server_list_invariant fs Hv) as (Hn & _).
  refine (conj Hv (conj _ (conj _ Hn))); vm_compute; reflexivity.
Defined.

(** X11. [open] returns 0 or [-ENOMEM]; it returns [-ENOMEM] exactly when
    [kmalloc] fails for the client, or for the server that the inode does
    not have yet; and then it leaves the server list exactly as it was: a
    server built for the failed call is unlinked again, and a server that
    has clients is not touched. *)
Theorem open_failure_changes_nothing (i : nat) (kmalloc_srv : option (list byte))
    (kmalloc_cnt : option nat) (server_list : list kerneltalk_server) :
  dir_ok server_list ->
  let r := kerneltalk_open i kmalloc_srv kmalloc_cnt server_list in
  (value r = SUCCESS \/ value r = - ENOMEM) /\
  (value r = - ENOMEM <->
   kmalloc_cnt = None \/ (find_server i server_list = None /\ kmalloc_srv = None)) /\
  (value r = - ENOMEM -> state r = server_list).
Proof.
  intros [Hn Hs] r.
  pose proof (kerneltalk_open_cases i kmalloc_srv kmalloc_cnt server_list) as Hc.
  cbv zeta in Hc. fold r in Hc.
  destruct (find_server i server_list) as [srv|] eqn:Hfind.
  - destruct (Hs srv (find_server_elem i _ _ Hfind)) as [_ Hne].
    destruct kmalloc_cnt as [cnt|]; destruct Hc as [-> ->].
    + split; [by left|]. split; [|done]. split; [done|]. by intros [|[]].
    + split; [by right|]. split; [split; [by left|done]|].
      by destruct (client_list srv).
  - destruct kmalloc_srv as [mem|].
    + destruct kmalloc_cnt as [cnt|]; destruct Hc as [-> ->].
      * split; [by left|]. split; [|done]. split; [done|]. by intros [|[]].
      * split; [by right|]. split; [|done]. split; [by left|done].
    + destruct Hc as [-> ->]. split; [by right|]. split; [|done].
      split; [by right|done].
Qed.

Lemma open_failure_changes_nothing_witness :
  let srv := joined 1 (fresh_server 7 (replicate 2048 x00)) in
  dir_ok [srv] /\
  kerneltalk_open 7 None None [srv]
  = (- ENOMEM, [srv],
     [ev_mutex_lock server_list_lock; ev_mutex_lock client_list_lock;
      ev_mutex_unlock client_list_lock; ev_mutex_unlock server_list_lock]) /\
  state (kerneltalk_open 8 (Some (replicate 2048 x00)) None [srv]) = [srv].
Proof.
  intros srv.
  assert (Hok : dir_ok [srv]).
  { split; [compute_done|]. intros x Hx. apply list_elem_of_singleton in Hx as ->.
    split; [|done].
    apply wf_joined; [apply wf_fresh_server; reflexivity|apply not_elem_of_nil]. }
  destruct (open_failure_changes_nothing 8 (Some (replicate 2048 x00)) None [srv] Hok)
    as (_ & [_ Hfail] & Hstate).
  refine (conj Hok (conj eq_refl (Hstate (Hfail _)))). by left.
Defined.

(** X12. The last close of the only client of a server removes the
    server from the list and touches no other server; an [open] of the same
    inode afterwards builds a new server in the memory it is given, with
    [end = 0] and the new client as its only client, at offset 0 with
    nothing unread. *)
Theorem last_close_destroys (i cnt : nat) (server_list : list kerneltalk_server)
    (srv : kerneltalk_server) :
  dir_ok server_list -> find_server i server_list = Some srv ->
  client_list srv = [cnt] ->
  let sl' := state (kerneltalk_flush i cnt 1 server_list) in
  find_server i sl' = None /\
  (forall j, j <> i -> find_server j sl' = find_server j server_list) /\
  (forall mem cnt',
     let r := kerneltalk_open i (Some mem) (Some cnt') sl' in
     value r = SUCCESS /\
     exists srv', find_server i (state r) = Some srv' /\
       end_ srv' = 0 /\ buffer srv' = mem /\ client_list srv' = [cnt'] /\
       offset srv' cnt' = 0 /\ unread cnt' srv' = 0).
Proof.
  intros [Hn Hs] Hfind Hl sl'.
  pose proof (find_server_inode i _ _ Hfind) as Hi.
  assert (Hleft : client_list (left_ cnt srv) = []).
  { cbn [left_ set_client_list client_list]. rewrite Hl. unfold list_del.
    rewrite filter_cons. by destruct (decide (cnt <> cnt)). }
  assert (Hsl' : sl' = unlink_server i (store_server i (left_ cnt srv) server_list)).
  { unfold sl'. rewrite kerneltalk_flush_state. cbn [Z.eqb Pos.eqb].
    by rewrite Hfind, Hleft. }
  assert (Hin : map inode (store_server i (left_ cnt srv) server_list)
                = map inode server_list) by (by apply store_server_inodes).
  assert (Hnone : find_server i sl' = None).
  { rewrite Hsl'. apply find_server_none.
    apply unlink_server_inodes. by rewrite Hin. }
  split; [done|]. split.
  - intros j Hj. rewrite Hsl', find_unlink_other by done.
    by apply find_store_other.
  - intros mem cnt' r.
    pose proof (kerneltalk_open_new i mem cnt' sl' Hnone) as Ho. fold r in Ho.
    rewrite Ho. split; [done|].
    exists (joined cnt' (fresh_server i mem)).
    cbn [state fst snd find_server joined fresh_server inode]. rewrite Nat.eqb_refl.
    split; [done|]. split; [done|]. split; [done|]. split; [done|].
    split; [simpl; by rewrite fn_lookup_insert|apply unread_joined].
Qed.

Lemma last_close_destroys_witness :
  let mem := replicate 2048 x00 in
  let srv := state (kerneltalk_write true false [x01; x02; x03] (joined 1 (fresh_server 7 mem))) in
  let other := joined 5 (fresh_server 8 mem) in
  dir_ok [other; srv] /\ end_ srv = 3 /\
  state (kerneltalk_flush 7 1 1 [other; srv]) = [other] /\
  exists srv', find_server 7 (state (kerneltalk_open 7 (Some mem) (Some 1%nat)
                                (state (kerneltalk_flush 7 1 1 [other; srv])))) = Some srv' /\
               end_ srv' = 0.
Proof.
  intros mem srv other.
  assert (Hok : dir_ok [other; srv]).
  { split; [compute_done|]. intros x Hx.
    apply elem_of_cons in Hx as [->|Hx]; [|apply list_elem_of_singleton in Hx as ->].
    - split; [|done].
      apply wf_joined; [apply wf_fresh_server; reflexivity|apply not_elem_of_nil].
    - split; [|done].
      apply (wf_step (op_write true false [x01; x02; x03]) (joined 1 (fresh_server 7 mem)));
        [|reflexivity].
      apply wf_joined; [apply wf_fresh_server; reflexivity|apply not_elem_of_nil]. }
  destruct (last_close_destroys 7 1 [other; srv] srv Hok eq_refl eq_refl)
    as (_ & _ & Hopen).
  destruct (Hopen mem 1%nat) as (_ & srv' & Hf & He & _).
  refine (conj Hok (conj eq_refl (conj _ _))); [vm_compute; reflexivity|].
  exists srv'. split; [exact Hf|exact He].
Defined.

(** X13. Opening a file and closing it again undoes the open.  On an
    inode that has no server the server list is given back exactly as it
    was.  On an inode that has one, the server keeps its client list, its
    buffer, its [end] and the offset of every client it had. *)
Theorem open_close_round_trip (i cnt : nat) (mem : option (list byte))
    (server_list : list kerneltalk_server) :
  let r := kerneltalk_open i mem (Some cnt) server_list in
  let r' := kerneltalk_flush i cnt 1 (state r) in
  match find_server i server_list with
  | None =>
      forall m, mem = Some m ->
      value r = SUCCESS /\ value r' = SUCCESS /\ state r' = server_list
  | Some srv =>
      cnt ∉ client_list srv -> client_list srv <> [] ->
      value r = SUCCESS /\ value r' = SUCCESS /\
      map inode (state r') = map inode server_list /\
      exists srv', find_server i (state r') = Some srv' /\
        client_list srv' = client_list srv /\ buffer srv' = buffer srv /\
        end_ srv' = end_ srv /\
        forall c, c ∈ client_list srv -> offset srv' c = offset srv c
  end.
Proof.
  intros r r'.
  assert (Hdel : forall l, cnt ∉ l -> list_del cnt (cnt :: l) = l).
  { intros l Hl. unfold list_del. rewrite filter_cons.
    destruct (decide (cnt <> cnt)) as [Hne|_]; [done|].
    induction l as [|c l IH]; [done|]. rewrite filter_cons.
    apply not_elem_of_cons in Hl as [Hc Hl].
    destruct (decide (c <> cnt)) as [_|Heq]; [by rewrite IH|].
    destruct (decide (c = cnt)); [done|]. by destruct Heq. }
  destruct (find_server i server_list) as [srv|] eqn:Hfind.
  - intros Hnew Hne. pose proof (find_server_inode i _ _ Hfind) as Hi.
    pose proof (kerneltalk_open_existing i mem cnt server_list srv Hfind) as Ho.
    fold r in Ho. assert (Hst : state r = store_server i (joined cnt srv) server_list)
      by (by rewrite Ho).
    split; [by rewrite Ho|].
    assert (Hf1 : find_server i (state r) = Some (joined cnt srv)).
    { rewrite Hst. by apply (find_store_server i _ srv). }
    destruct (kerneltalk_flush_last_close i cnt _ _ Hf1) as [Hv' Hst'].
    fold r' in Hv', Hst'. split; [done|].
    assert (Hcl : client_list (left_ cnt (joined cnt srv)) = client_list srv).
    { cbn [left_ set_client_list joined client_list]. by apply Hdel. }
    assert (Hin : map inode (state r) = map inode server_list).
    { rewrite Hst. by apply store_server_inodes. }
    rewrite Hcl in Hst'.
    destruct (client_list srv) as [|c0 l0] eqn:El.
    + done.
    + split.
      { rewrite Hst', store_server_inodes; [done|]. simpl. by rewrite Hi. }
      exists (left_ cnt (joined cnt srv)). split.
      { rewrite Hst'. apply (find_store_server i _ (joined cnt srv)); [done|done]. }
      split; [exact Hcl|]. split; [done|]. split; [done|].
      intros c Hc. simpl. apply fn_lookup_insert_ne. by intros <-.
  - intros m ->. unfold r' , r. rewrite kerneltalk_open_new by done.
    split; [done|]. cbn [state fst snd].
    assert (Hf1 : find_server i (joined cnt (fresh_server i m) :: server_list)
                  = Some (joined cnt (fresh_server i m))).
    { cbn [find_server joined fresh_server inode]. by rewrite Nat.eqb_refl. }
    destruct (kerneltalk_flush_last_close i cnt _ _ Hf1) as [Hv' Hst'].
    split; [done|]. rewrite Hst'.
    cbn [left_ set_client_list joined fresh_server client_list].
    rewrite (Hdel [] (not_elem_of_nil cnt)).
    cbn [store_server inode unlink_server]. rewrite Nat.eqb_refl.
    cbn [unlink_server inode]. by rewrite Nat.eqb_refl.
Qed.

Lemma open_close_round_trip_witness :
  let other := joined 5 (fresh_server 8 (replicate 2048 x00)) in
  find_server 7 [other] = None /\
  state (kerneltalk_flush 7 1 1
           (state (kerneltalk_open 7 (Some (replicate 2048 x00)) (Some 1%nat) [other])))
  = [other] /\
  (5%nat ∉ client_list (joined 1 (fresh_server 7 []))) /\
  client_list (joined 1 (fresh_server 7 [])) <> [] /\
  (client_list <$> find_server 7 (state (kerneltalk_flush 7 5 1
           (state (kerneltalk_open 7 None (Some 5%nat) [joined 1 (fresh_server 7 [])])))))
  = Some [1%nat].
Proof.
  intros other.
  pose proof (open_close_round_trip 7 1 (Some (replicate 2048 x00)) [other]) as H.
  cbv zeta in H.
  change (find_server 7 [other]) with (@None kerneltalk_server) in H.
  destruct (H _ eq_refl) as (_ & _ & H1).
  pose proof (open_close_round_trip 7 5 None [joined 1 (fresh_server 7 [])]) as H'.
  cbv zeta in H'.
  change (find_server 7 [joined 1 (fresh_server 7 [])])
    with (Some (joined 1 (fresh_server 7 []))) in H'.
  assert (Hn : 5%nat ∉ client_list (joined 1 (fresh_server 7 []))) by compute_done.
  assert (Hne : client_list (joined 1 (fresh_server 7 [])) <> []) by done.
  destruct (H' Hn Hne) as (_ & _ & _ & srv' & Hf & Hc & _).
  split; [reflexivity|]. split; [exact H1|]. split; [exact Hn|].
  split; [exact Hne|]. rewrite Hf. simpl. by rewrite Hc.
Defined.

(** X14. A call on one inode leaves the server of every other inode as
    it is. *)
Theorem other_servers_untouched (f : file_operation)
    (server_list : list kerneltalk_server) (j : nat) :
  j <> call_inode f ->
  find_server j (call_state f server_list) = find_server j server_list.
Proof.
  intros Hj.
  destruct f as [i ks kc|i c n|i c nb sg len|i nb sg buf|i c];
    cbn [call_state call_inode] in *.
  - pose proof (kerneltalk_open_cases i ks kc server_list) as Hc. cbv zeta in Hc.
    destruct (find_server i server_list) as [srv|] eqn:Hfind.
    + pose proof (find_server_inode i _ _ Hfind) as Hi.
      destruct kc as [cnt|]; destruct Hc as [_ ->].
      * by apply find_store_other.
      * destruct (client_list srv); [by apply find_unlink_other|done].
    + destruct ks as [mem|]; [|by destruct Hc as [_ ->]].
      destruct kc as [cnt|]; destruct Hc as [_ ->]; [|done].
      cbn [find_server joined fresh_server inode].
      by destruct (Nat.eqb_spec i j); [congruence|].
  - rewrite kerneltalk_flush_state. destruct (n =? 1); [|done].
    destruct (find_server i server_list) as [srv|] eqn:Hfind; [|done].
    pose proof (find_server_inode i _ _ Hfind) as Hi.
    destruct (client_list (left_ c srv)).
    + rewrite find_unlink_other by done. by apply find_store_other.
    + by apply find_store_other.
  - rewrite on_server_state.
    destruct (find_server i server_list) as [srv|] eqn:Hfind; [|done].
    apply find_store_other; [|done].
    rewrite kerneltalk_read_inode. by apply (find_server_inode i server_list).
  - rewrite on_server_state.
    destruct (find_server i server_list) as [srv|] eqn:Hfind; [|done].
    apply find_store_other; [|done].
    destruct (kerneltalk_write_inode nb sg buf srv) as [-> _].
    by apply (find_server_inode i server_list).
  - rewrite on_server_state.
    destruct (find_server i server_list) as [srv|] eqn:Hfind; [|done].
    apply find_store_other; [|done].
    rewrite kerneltalk_poll_state. by apply (find_server_inode i server_list).
Qed.

Lemma other_servers_untouched_witness :
  let mem := replicate 2048 x00 in
  let sl := [joined 5 (fresh_server 8 mem); joined 1 (fresh_server 7 mem)] in
  find_server 8 (call_state (fop_write 7 true false [x01; x02]) sl)
  = Some (joined 5 (fresh_server 8 mem)) /\
  (end_ <$> find_server 7 (call_state (fop_write 7 true false [x01; x02]) sl)) = Some 2.
Proof.
  intros mem sl. split.
  - rewrite (other_servers_untouched (fop_write 7 true false [x01; x02]) sl 8);
      [reflexivity|]. simpl. lia.
  - vm_compute. reflexivity.
Defined.

(** ** Locks at the end of a call *)

Lemma traces_held :
  Forall (fun t => held_after [] t = [] \/ held_after [] t = [client_list_lock]) traces.
Proof.
  unfold traces, open_traces, flush_traces, write_events, write_wait_events,
    read_events, read_wait_events, poll_events, room_events.
  repeat constructor; simpl; first [ by left | by right ].
Qed.

(** X15. Every file operation returns with the buffer lock and the
    server list lock released.  The client list lock is released too,
    except where [check_free_server] has freed the server it belongs to:
    there the lock is taken and never released.  [check_free_server] leaves
    the lock held exactly when the server has no client, and then it has
    unlinked the server. *)
Theorem locks_released (f : file_operation) (server_list : list kerneltalk_server) :
  (held_after [] (call_events f server_list) = [] \/
   held_after [] (call_events f server_list) = [client_list_lock]) /\
  (forall i,
     (held_after [] (events (check_free_server i server_list)) = [client_list_lock] <->
      exists srv, find_server i server_list = Some srv /\ client_list srv = []) /\
     (held_after [] (events (check_free_server i server_list)) = [client_list_lock] ->
      state (check_free_server i server_list) = unlink_server i server_list)) /\
  (forall cnt O_NONBLOCK signal length usrbuf srv,
     held_after [] (events (kerneltalk_read cnt O_NONBLOCK signal length srv)) = [] /\
     held_after [] (events (kerneltalk_write O_NONBLOCK signal usrbuf srv)) = [] /\
     held_after [] (events (kerneltalk_poll cnt srv)) = []).
Proof.
  split; [|split].
  - pose proof traces_held as H. rewrite list.Forall_forall in H.
    apply H, call_events_traces.
  - intros i. rewrite check_free_server_state.
    unfold check_free_server, bind, get, modify, mutex_lock_interruptible,
      mutex_unlock, emit.
    cbv beta iota. destruct (find_server i server_list) as [srv|]; cbn [option_map].
    + destruct (client_list srv) as [|c l] eqn:E; simpl.
      * split; [|done]. split; [|done]. intros _. by exists srv.
      * split; [|done]. split; [done|]. intros (s & [= <-] & H). congruence.
    + simpl. split; [|done]. split; [done|]. by intros (s & H & _).
  - intros cnt nb sg len buf srv. split; [|split].
    + by destruct (kerneltalk_read_events cnt nb sg len srv) as [-> | ->].
    + destruct (kerneltalk_write_events nb sg buf srv) as [-> | ->]; [by destruct nb|done].
    + by rewrite kerneltalk_poll_events.
Qed.

(** ** [writeall] *)

Lemma written_nil srv : written [] srv = srv.
Proof. by destruct srv. Qed.

Lemma writeall_S fuel O_NONBLOCK buf srv :
  writeall (S fuel) O_NONBLOCK buf srv =
  if Z.of_nat (length buf) >? 0 then
    let r := kerneltalk_write O_NONBLOCK false buf srv in
    let r' := match value r with
              | Returned rv =>
                  if rv <? 0 then (wa_exit, state r, [])
                  else writeall fuel O_NONBLOCK (drop (Z.to_nat rv) buf) (state r)
              | Sleeping _ => (wa_blocked buf, state r, [])
              | Reenter => writeall fuel O_NONBLOCK buf (state r)
              end in
    (value r', state r', events r ++ events r')
  else (wa_return, srv, []).
Proof.
  cbn [writeall]. destruct (Z.of_nat (length buf) >? 0); [|done].
  unfold bind. destruct (kerneltalk_write O_NONBLOCK false buf srv) as [[a s1] t1].
  cbn [value state events fst snd].
  destruct a as [rv|q|]; [destruct (rv <? 0)|..]; try done;
    by match goal with |- context [writeall ?f ?nb ?b ?s] =>
         destruct (writeall f nb b s) as [[? ?] ?] end.
Qed.

Lemma writeall_eq fuel O_NONBLOCK buf srv :
  wf srv -> client_list srv <> [] ->
  let w := take (Z.to_nat (room srv)) buf in
  let r := writeall (S (S fuel)) O_NONBLOCK buf srv in
  state r = written w srv /\
  value r = (if decide (Z.of_nat (length buf) <= room srv) then wa_return
             else if O_NONBLOCK then wa_exit
             else wa_blocked (drop (Z.to_nat (room srv)) buf)) /\
  wakes (events r) = (if decide (w = []) then [] else [rwq]).
Proof.
  intros Hwf Hne w r. pose proof (room_range srv Hwf) as Hr.
  unfold r. rewrite writeall_S.
  destruct (Z.gtb_spec (Z.of_nat (length buf)) 0) as [Hpos|Hzero].
  - destruct (decide (room srv = 0)) as [H0|H0].
    + rewrite kerneltalk_write_no_room by done.
      assert (Hw : w = []) by (unfold w; by rewrite H0).
      rewrite Hw, written_nil, H0.
      destruct (decide (Z.of_nat (length buf) <= 0)) as [|_]; [lia|].
      destruct (decide ([] = [])) as [_|]; [|done].
      by destruct O_NONBLOCK.
    + rewrite kerneltalk_write_room by done.
      cbv zeta. fold w. cbn [value state events fst snd].
      assert (Hlen : Z.of_nat (length w) = Z.min (room srv) (Z.of_nat (length buf))).
      { unfold w. rewrite length_take. lia. }
      destruct (Z.ltb_spec (Z.of_nat (length w)) 0) as [|_]; [lia|].
      rewrite Nat2Z.id.
      assert (Hw : w <> []) by (intros Hw; rewrite Hw in Hlen; simpl in Hlen; lia).
      assert (Hwf' : wf (written w srv)) by (by apply wf_written).
      assert (Hroom' : room (written w srv) = room srv - Z.of_nat (length w))
        by (apply room_written; [done|done|lia]).
      destruct (decide (w = [])) as [|_]; [done|].
      destruct (decide (Z.of_nat (length buf) <= room srv)) as [Hfit|Hshort].
      * assert (Hall : w = buf) by (unfold w; apply take_ge; lia).
        rewrite Hall, drop_all. by destruct fuel.
      * assert (Hdrop : drop (length w) buf = drop (Z.to_nat (room srv)) buf).
        { unfold w. rewrite length_take. f_equal. lia. }
        rewrite Hdrop.
        assert (Hrest : Z.of_nat (length (drop (Z.to_nat (room srv)) buf)) > 0)
          by (rewrite length_drop; lia).
        rewrite writeall_S.
        destruct (Z.gtb_spec (Z.of_nat (length (drop (Z.to_nat (room srv)) buf))) 0)
          as [_|]; [|lia].
        rewrite kerneltalk_write_no_room by lia.
        by destruct O_NONBLOCK.
  - assert (Hbuf : buf = []) by (apply nil_length_inv; lia).
    assert (Hw : w = []) by (unfold w; by rewrite Hbuf, take_nil).
    rewrite Hw, written_nil.
    destruct (decide (Z.of_nat (length buf) <= room srv)) as [_|]; [|lia].
    by destruct (decide ([] = [])).
Qed.

(** X16. [writeall] makes at most two calls of [write].  It stores the
    first [room_to_write] bytes of the buffer, in order.  When the whole
    buffer fits it returns.  When it does not, the second [write] finds no
    room: on a blocking file it sleeps on [wwq] with exactly the bytes
    that were not stored still to send, on a non-blocking file the program
    exits.  Readers are woken once if a byte was stored, and not at all
    otherwise. *)
Theorem writeall_sends_what_fits (fuel : nat) (O_NONBLOCK : bool) (buf : list byte)
    (srv : kerneltalk_server) :
  wf srv -> client_list srv <> [] ->
  let r := writeall (S (S fuel)) O_NONBLOCK buf srv in
  let n := Z.to_nat (room srv) in
  state r = written (take n buf) srv /\
  (forall cnt, cnt ∈ client_list srv ->
     pending cnt (state r) = pending cnt srv ++ take n buf) /\
  (Z.of_nat (length buf) <= room srv -> value r = wa_return) /\
  (room srv < Z.of_nat (length buf) ->
     value r = (if O_NONBLOCK then wa_exit else wa_blocked (drop n buf)) /\
     room (state r) = 0) /\
  wakes (events r) = (if decide (take n buf = []) then [] else [rwq]).
Proof.
  intros Hwf Hne r n. pose proof (room_range srv Hwf) as Hr.
  destruct (writeall_eq fuel O_NONBLOCK buf srv Hwf Hne) as (Hs & Hv & He).
  fold r n in Hs, Hv, He.
  split; [done|]. split; [|split; [|split; [|done]]].
  - intros cnt Hc. rewrite Hs.
    destruct (pending_written cnt (take n buf) srv Hwf Hc) as [-> _]; [|done].
    rewrite length_take. unfold n. lia.
  - intros Hfit. rewrite Hv. by destruct (decide _).
  - intros Hshort. rewrite Hv. destruct (decide _) as [|_]; [lia|].
    split; [done|]. rewrite Hs, room_written; [|done|done|].
    + rewrite length_take. unfold n. lia.
    + rewrite length_take. unfold n. lia.
Qed.

Lemma writeall_sends_what_fits_witness :
  let srv := mk_server 0 [1]%nat (fun _ => 10) (replicate 2048 x00) 7 in
  let r := writeall 2 false [x01; x02; x03] srv in
  wf srv /\ client_list srv <> [] /\ room srv = 2 /\
  value r = wa_blocked [x03] /\ pending 1 (state r) = pending 1 srv ++ [x01; x02].
Proof.
  intros srv r.
  assert (Hwf : wf srv) by wf_concrete.
  assert (Hne : client_list srv <> []) by done.
  destruct (writeall_sends_what_fits 0 false [x01; x02; x03] srv Hwf Hne)
    as (_ & Hp & _ & Hb & _).
  destruct (Hb eq_refl) as [Hv _].
  assert (Hin : 1%nat ∈ client_list srv) by (by left).
  exact (conj Hwf (conj Hne (conj eq_refl (conj Hv (Hp 1%nat Hin))))).
Defined.

(** X17. A client whose own unread bytes fill the buffer makes room only
    by reading.  While it neither reads nor closes, whatever the other
    clients do, no byte is stored, the room stays 0, and a [writeall] of
    this client on a blocking file stays asleep with all of its bytes. *)
Theorem full_of_own_backlog (cnt : nat) (ops : list op) (fuel : nat)
    (buf : list byte) (srv srv' : kerneltalk_server) :
  wf srv -> cnt ∈ client_list srv -> unread cnt srv = KERNELTALK_BUF - 1 ->
  quiet cnt ops -> run ops srv = Some srv' ->
  written_by ops srv = [] /\ room srv' = 0 /\
  pending cnt srv' = pending cnt srv /\
  (buf <> [] ->
   value (writeall (S fuel) false buf srv') = wa_blocked buf /\
   state (writeall (S fuel) false buf srv') = srv').
Proof.
  intros Hwf Hin Hfull Hq Hrun.
  pose proof (wf_run ops srv srv' Hwf Hrun) as Hwf'.
  destruct (pending_run cnt ops srv srv' Hwf Hin Hq Hrun) as [Hin' Hp].
  pose proof (unread_pending cnt srv Hwf Hin) as Hu.
  pose proof (unread_pending cnt srv' Hwf' Hin') as Hu'.
  rewrite Hp, length_app in Hu'.
  pose proof (room_unread srv' cnt Hwf' Hin') as Hroom.
  pose proof (room_range srv' Hwf') as Hr.
  assert (Hnil : written_by ops srv = []) by (apply nil_length_inv; lia).
  assert (H0 : room srv' = 0) by (rewrite Hnil in Hu'; simpl in Hu'; lia).
  split; [done|]. split; [done|]. split; [by rewrite Hp, Hnil, app_nil_r|].
  intros Hbuf. rewrite writeall_S.
  destruct (Z.gtb_spec (Z.of_nat (length buf)) 0) as [_|Hz].
  - by rewrite kerneltalk_write_no_room.
  - destruct buf; [done|simpl in Hz; lia].
Qed.

Lemma full_of_own_backlog_witness :
  let srv := mk_server 0 [2; 1]%nat (fun c => if Nat.eqb c 1 then 8 else 7)
               (replicate 2048 x00) 7 in
  let ops := [op_write true false [x01]; op_read 2 true false 4; op_open 3; op_poll 1] in
  wf srv /\ unread 1 srv = KERNELTALK_BUF - 1 /\ quiet 1 ops /\
  (exists srv', run ops srv = Some srv' /\ room srv' = 0 /\
     value (writeall 1 false [x05; x06] srv') = wa_blocked [x05; x06]).
Proof.
  intros srv ops.
  assert (Hwf : wf srv) by wf_concrete.
  assert (Hin : 1%nat ∈ client_list srv) by (right; left).
  assert (Hfull : unread 1 srv = KERNELTALK_BUF - 1) by reflexivity.
  assert (Hq : quiet 1 ops) by reflexivity.
  destruct (run ops srv) as [srv'|] eqn:Hrun; [|vm_compute in Hrun; discriminate Hrun].
  destruct (full_of_own_backlog 1 ops 0 [x05; x06] srv srv' Hwf Hin Hfull Hq Hrun)
    as (_ & H0 & _ & Hb).
  destruct Hb as [Hv _]; [done|].
  refine (conj Hwf (conj Hfull (conj Hq _))).
  exists srv'. split; [reflexivity|]. split; [exact H0|exact Hv].
Defined.
